(** * django-material-demo: the form-validation and filtering logic

    A shallow embedding of the validation code of the CMS forms
    ([cms/utils/forms.py], [cms/polls/views/question.py]) and of the
    follower-count filter ([cms/polls/views/user.py]), with the
    properties the design description states about them.

    The Python code mutates form objects and may raise; it is embedded
    as state-passing functions in a small state-and-exception monad.
    Dictionaries ([cleaned_data], [errors], widget [attrs]) are finite
    maps keyed by strings. *)

From stdpp Require Import gmap strings list fin_maps pretty.
From Stdlib Require Import ZArith QArith.
Local Open Scope string_scope.
Local Open Scope list_scope.
Local Open Scope Z_scope.

(** ** Python values, exceptions, results *)

(** The Python values that flow through the forms: [None], booleans,
    integers, strings, datetimes (an instant, as a timestamp) and model
    instances (identified by primary key, as Django's [Model.__eq__]
    does). *)
Inductive pyval : Type :=
  | PNone
  | PBool (b : bool)
  | PInt (n : Z)
  | PStr (s : string)
  | PDateTime (t : Z)
  | PModel (pk : Z).

Inductive exn : Type :=
  | TypeError
  | ValueError
  | IndexError
  | KeyError
  | AttributeError
  | FieldError
  | ValidationFailed.

Inductive result (A : Type) : Type :=
  | Ok (a : A)
  | Raise (e : exn).
Arguments Ok {A} a.
Arguments Raise {A} e.

Global Instance result_ret : MRet result := λ A a, Ok a.
Global Instance result_bind : MBind result :=
  λ A B k r, match r with Ok a => k a | Raise e => Raise e end.

(** [bool(v)] *)
Definition truthy (v : pyval) : bool :=
  match v with
  | PNone => false
  | PBool b => b
  | PInt n => negb (n =? 0)
  | PStr s => negb (String.eqb s "")
  | PDateTime _ => true
  | PModel _ => true
  end.

Definition is_none (v : pyval) : bool :=
  match v with PNone => true | _ => false end.

(** Booleans are integers in Python ([True == 1]). *)
Definition num_of (v : pyval) : option Z :=
  match v with
  | PBool b => Some (if b then 1 else 0)
  | PInt n => Some n
  | _ => None
  end.

(** [a == b] *)
Definition py_eq (a b : pyval) : bool :=
  match num_of a, num_of b with
  | Some x, Some y => x =? y
  | _, _ =>
      match a, b with
      | PNone, PNone => true
      | PStr s, PStr t => String.eqb s t
      | PDateTime s, PDateTime t => s =? t
      | PModel p, PModel q => p =? q
      | _, _ => false
      end
  end.

(** [a > b]; ordering values of unrelated types is a [TypeError]. *)
Definition py_gt (a b : pyval) : result bool :=
  match num_of a, num_of b with
  | Some x, Some y => Ok (x >? y)
  | _, _ =>
      match a, b with
      | PStr s, PStr t => Ok (String.ltb t s)
      | PDateTime s, PDateTime t => Ok (s >? t)
      | _, _ => Raise TypeError
      end
  end.

(** [a < b] *)
Definition py_lt (a b : pyval) : result bool := py_gt b a.

(** [x in xs] for a list *)
Definition py_in (x : pyval) (xs : list pyval) : bool :=
  existsb (py_eq x) xs.

(** ** State and exceptions *)

Definition M (St A : Type) : Type := St → result (A * St).

Global Instance M_ret {St} : MRet (M St) := λ A a s, Ok (a, s).
Global Instance M_bind {St} : MBind (M St) :=
  λ A B k m s, match m s with Ok (a, s') => k a s' | Raise e => Raise e end.

Definition lift {St A} (r : result A) : M St A :=
  λ s, match r with Ok a => Ok (a, s) | Raise e => Raise e end.

Definition gets {St A} (f : St → A) : M St A := λ s, Ok (f s, s).

(** ** Django forms: the state the validation code reads and writes *)

(** [django.core.exceptions.ValidationError(message, code, params)] *)
Record ValidationError : Type := mkValidationError {
  message : string;
  code : option string;
  params : list (string * pyval);
}.

Definition NON_FIELD_ERRORS : string := "__all__".

(** [form.errors]: field name to the list of its errors *)
Abbreviation ErrorDict := (gmap string (list ValidationError)).

(** A form field; only its [widget.attrs] are touched by this code. *)
Record Field : Type := mkField {
  widget_attrs : gmap string pyval;
}.

Record Form : Type := mkForm {
  is_bound : bool;
  initial : gmap string pyval;
  fields : gmap string Field;
  cleaned_data : gmap string pyval;
  errors : ErrorDict;
}.

Definition set_errors (e : ErrorDict) (self : Form) : Form :=
  mkForm (is_bound self) (initial self) (fields self) (cleaned_data self) e.
Definition set_cleaned_data (c : gmap string pyval) (self : Form) : Form :=
  mkForm (is_bound self) (initial self) (fields self) c (errors self).
Definition set_fields (fl : gmap string Field) (self : Form) : Form :=
  mkForm (is_bound self) (initial self) fl (cleaned_data self) (errors self).

(** [dict.get(key, default)] *)
Definition dict_get {V} (d : gmap string V) (key : string) (dflt : V) : V :=
  default dflt (d !! key).

(** [dict[key]] *)
Definition dict_item {V} (d : gmap string V) (key : string) : result V :=
  match d !! key with Some v => Ok v | None => Raise KeyError end.

(** What [add_error] does to the form: the error is appended to the
    field's list, and the field leaves [cleaned_data]. *)
Definition record_error (field : string) (error : ValidationError)
    (self : Form) : Form :=
  set_cleaned_data (delete field (cleaned_data self))
    (set_errors
       (<[field := dict_get (errors self) field [] ++ [error]]> (errors self))
       self).

(** [BaseForm.add_error(field, error)] for a single error; a field name
    the form does not know is a [ValueError]. *)
Definition add_error (field : string) (error : ValidationError) (self : Form)
  : result Form :=
  if bool_decide (errors self !! field = None)
     && bool_decide (field ≠ NON_FIELD_ERRORS)
     && bool_decide (fields self !! field = None)
  then Raise ValueError
  else Ok (record_error field error self).

(** The errors recorded for one field, [[]] when it has none. *)
Definition field_errors (self : Form) (field : string) : list ValidationError :=
  dict_get (errors self) field [].

(** What a formset's [full_clean] fills in: the error dict of every child
    form not marked for deletion ([_errors]) and the formset-level errors
    ([_non_form_errors]). *)
Record Validation : Type := mkValidation {
  _errors : list ErrorDict;
  _non_form_errors : list ValidationError;
}.

(** A formset: its child forms and the outcome of its validation. The
    two attributes [_errors] and [_non_form_errors] are [None] together
    until [full_clean] runs, which fills them in together: [validation]
    is [None] for a formset that has not been validated. *)
Record FormSet : Type := mkFormSet {
  forms : list Form;
  can_delete : bool;
  validation : option Validation;
}.

(** [len(formset)] *)
Definition formset_len (fs : FormSet) : Z := Z.of_nat (length (forms fs)).

(** [len(x)]; [None] has no length. *)
Definition py_len {A} (x : option (list A)) : result Z :=
  match x with
  | Some l => Ok (Z.of_nat (length l))
  | None => Raise TypeError
  end.

Section formset_errors.
(** [self.full_clean()], the method of the formset's class: the
    framework's validation of the child forms, then the formset's own
    [clean]. *)
Variable full_clean : FormSet → result FormSet.

(** [BaseFormSet.non_form_errors()]: a formset whose [_non_form_errors]
    is [None] is validated first. *)
Definition non_form_errors : M FormSet (option (list ValidationError)) :=
  λ self,
    match validation self with
    | None =>
        self ← full_clean self;
        Ok (_non_form_errors <$> validation self, self)
    | Some v => Ok (Some (_non_form_errors v), self)
    end.

(** The property [BaseFormSet.errors], likewise for [_errors]. *)
Definition formset_errors : M FormSet (option (list ErrorDict)) :=
  λ self,
    match validation self with
    | None =>
        self ← full_clean self;
        Ok (_errors <$> validation self, self)
    | Some v => Ok (Some (_errors v), self)
    end.

(** [BaseFormSet.total_error_count()]:
    [len(self.non_form_errors()) + sum(len(form_errors) for form_errors in self.errors)];
    the length of an error dict is the number of its entries. *)
Definition total_error_count : M FormSet Z :=
  non_form ← non_form_errors;
  n ← lift (py_len non_form);
  form_errors ← formset_errors;
  match form_errors with
  | Some l =>
      mret (n + foldr Z.add 0
                  ((λ form_errors : ErrorDict, Z.of_nat (size form_errors)) <$> l))
  | None => lift (Raise TypeError)
  end.
End formset_errors.

(** [BaseFormSet._should_delete_form(form)] *)
Definition DELETION_FIELD_NAME : string := "DELETE".
Definition should_delete_form (form : Form) : bool :=
  truthy (dict_get (cleaned_data form) DELETION_FIELD_NAME (PBool false)).

(** A [SuperModelForm]: a form with named nested formsets (an ordered
    dict, in declaration order). *)
Record SuperForm : Type := mkSuperForm {
  form : Form;
  formsets : list (string * FormSet);
}.

Definition set_form (f : Form) (self : SuperForm) : SuperForm :=
  mkSuperForm f (formsets self).

Fixpoint odict_item {V} (d : list (string * V)) (key : string) : result V :=
  match d with
  | [] => Raise KeyError
  | (k, v) :: d' => if String.eqb k key then Ok v else odict_item d' key
  end.

(** ** Python strings and lists *)

Fixpoint string_drop (n : nat) (s : string) : string :=
  match n, s with
  | O, _ => s
  | S n', String _ s' => string_drop n' s'
  | S _, EmptyString => EmptyString
  end.

(** The first occurrence of [sep] in [s]: the text before it and the
    text after it. *)
Fixpoint split_once (sep s : string) : option (string * string) :=
  if String.prefix sep s
  then Some (EmptyString, string_drop (String.length sep) s)
  else
    match s with
    | EmptyString => None
    | String c s' =>
        match split_once sep s' with
        | Some (before, after) => Some (String c before, after)
        | None => None
        end
    end.

(** [s.split(sep, maxsplit=1)] *)
Definition py_split (s sep : string) : result (list string) :=
  if String.eqb sep "" then Raise ValueError
  else
    match split_once sep s with
    | Some (before, after) => Ok [before; after]
    | None => Ok [s]
    end.

(** [l[i]] for [i >= 0] *)
Definition list_item {A} (l : list A) (i : nat) : result A :=
  match l !! i with Some x => Ok x | None => Raise IndexError end.

(** [s[-1]] *)
Fixpoint string_last (s : string) : result Ascii.ascii :=
  match s with
  | EmptyString => Raise IndexError
  | String c EmptyString => Ok c
  | String _ s' => string_last s'
  end.

(** ** cms/utils/forms.py *)

Module FormSetForm.
Section full_clean.
Variable parent_instance_field : string.
(** [super().full_clean()] is the framework's: it leaves the form
    with the errors of base validation. *)
Variable super_full_clean : Form → Form.

(** [self._errors.get(name)] is truthy when the field has a
    non-empty error list. *)
Definition has_field_errors (name : string) (self : Form) : bool :=
  match errors self !! name with
  | Some (_ :: _) => true
  | _ => false
  end.

Definition full_clean (self : Form) : Form :=
  let self := super_full_clean self in
  if has_field_errors parent_instance_field self
  then set_errors (delete parent_instance_field (errors self)) self
  else self.
End full_clean.
End FormSetForm.

Module FieldDataMixin.
Section get_field_value.
(** [self[field_name].value()]: the value the framework's bound field
    reports for the submitted data. *)
Variable boundfield_value : Form → string → pyval.

Definition get_field_value (self : Form) (field_name : string)
  : result pyval :=
  if is_bound self
  then
    _ ← dict_item (fields self) field_name;
    Ok (boundfield_value self field_name)
  else Ok (dict_get (initial self) field_name PNone).
End get_field_value.
End FieldDataMixin.

Module FileS3UploadField.
Section clean.
(** The settings the field reads. *)
Variable AWS_STORAGE_BUCKET_NAME : string.
Variable S3DIRECT_DESTINATIONS : gmap string (gmap string string).
(** [self.dest] *)
Variable dest : string.
(** [URLField.clean] *)
Variable super_clean : pyval → result string.

Definition slash : Ascii.ascii := Ascii.Ascii true true true true false true false false.

(** The destination directory with its closing slash. *)
Definition with_slash (file_dir : string) : result string :=
  last ← string_last file_dir;
  if negb (Ascii.eqb last slash) then Ok (file_dir +:+ "/")
  else Ok file_dir.

Definition clean (value : pyval) : result string :=
  url ← super_clean value;
  if negb (String.eqb url "")
  then
    let bucket := AWS_STORAGE_BUCKET_NAME in
    destination ← dict_item S3DIRECT_DESTINATIONS dest;
    file_dir ← dict_item destination "key";
    file_dir ← with_slash file_dir;
    parts ← py_split url bucket;
    file_name ← list_item parts 1;
    parts ← py_split file_name file_dir;
    file_name ← list_item parts 1;
    Ok file_name
  else Ok "".
End clean.
End FileS3UploadField.

(** ** cms/polls/views/question.py *)

Module QuestionFollowersFormSet.

Definition duplicate_values : ValidationError :=
  mkValidationError "Please correct the duplicate values below."
    (Some "unique") [].

Section clean.
(** [super().clean()] is the framework's. *)
Variable super_clean : FormSet → result FormSet.
(** [self.add_error], as the formset object resolves it. *)
Variable self_add_error : string → ValidationError → FormSet → result FormSet.

(** The [for form in self.forms] loop; [followers] is the list built
    so far. Adding the error ends the loop ([break]). *)
Fixpoint clean_loop (rest : list Form) (followers : list pyval)
    (self : FormSet) : result FormSet :=
  match rest with
  | [] => Ok self
  | form :: rest' =>
      if can_delete self && should_delete_form form
      then clean_loop rest' followers self
      else
        let follower := dict_get (cleaned_data form) "follower" PNone in
        if py_in follower followers
        then self_add_error NON_FIELD_ERRORS duplicate_values self
        else clean_loop rest' (followers ++ [follower]) self
  end.

Definition clean (self : FormSet) : result FormSet :=
  self ← super_clean self;
  clean_loop (forms self) [] self.
End clean.

(** Django's formset classes ([BaseFormSet], [BaseModelFormSet],
    [BaseInlineFormSet]) define no [add_error], only forms do, and
    [QuestionFollowersFormSet] adds none: the attribute lookup fails. *)
Definition formset_add_error (field : string) (error : ValidationError)
    (self : FormSet) : result FormSet :=
  Raise AttributeError.

(** Modelled from the spec: what the call is written to do, on a formset
    that had the method. The design description has duplicate followers
    yield one non-field error, so the call would record [error] among the
    formset's non-field errors. *)
Definition add_non_field_error (field : string) (error : ValidationError)
    (self : FormSet) : result FormSet :=
  let v := default (mkValidation [] []) (validation self) in
  Ok (mkFormSet (forms self) (can_delete self)
        (Some (mkValidation (_errors v) (_non_form_errors v ++ [error])))).

End QuestionFollowersFormSet.

Module MaxVoteCountForm.
Section init.
Variable boundfield_value : Form → string → pyval.

(** [self.fields[name].widget.attrs.update(...)] *)
Definition widget_attrs_update (name : string)
    (updates : list (string * pyval)) (self : Form) : Form :=
  set_fields
    (alter
       (λ fld, mkField
          (foldl (λ attrs kv, <[kv.1 := kv.2]> attrs)
             (widget_attrs fld) updates))
       name (fields self))
    self.

(** [__init__], from the form [super().__init__] has built. *)
Definition __init__ (self : Form) : result Form :=
  _ ← dict_item (fields self) "has_max_vote_count";
  _ ← dict_item (fields self) "max_vote_count";
  toggle ← FieldDataMixin.get_field_value boundfield_value self
             "has_max_vote_count";
  let self :=
    widget_attrs_update "has_max_vote_count"
      [("data-reload-form", PBool true)] self in
  if truthy toggle
  then Ok (widget_attrs_update "max_vote_count"
             [("required", PBool true)] self)
  else Ok (widget_attrs_update "max_vote_count"
             [("disabled", PBool true); ("value", PStr "")] self).
End init.
End MaxVoteCountForm.

Module QuestionForm.

(** [self.cleaned_data.get(key, None)] *)
Definition cleaned_get (key : string) : M SuperForm pyval :=
  gets (λ self, dict_get (cleaned_data (form self)) key PNone).

(** [self.add_error(field, error)] *)
Definition self_add_error (field : string) (error : ValidationError)
  : M SuperForm unit :=
  λ self, f ← add_error field error (form self); Ok (tt, set_form f self).

Definition vote_end_too_early : ValidationError :=
  mkValidationError "Ensure this time is later than the vote start date."
    (Some "vote_end_too_early") [].

Definition check_vote_end : M SuperForm unit :=
  vote_end ← cleaned_get "vote_end";
  vote_start ← cleaned_get "vote_start";
  if negb (is_none vote_start) && negb (is_none vote_end)
  then
    later ← lift (py_gt vote_start vote_end);
    if later : bool then self_add_error "vote_end" vote_end_too_early
    else mret tt
  else mret tt.

Definition max_vote_count_required : ValidationError :=
  mkValidationError "This field is required."
    (Some "max_vote_count_required") [].

Definition max_vote_count_positive : ValidationError :=
  mkValidationError "Ensure this value is positive."
    (Some "max_vote_count_positive") [].

Definition check_max_vote_count : M SuperForm unit :=
  max_vote_count ← cleaned_get "max_vote_count";
  has_max_vote_count ← cleaned_get "has_max_vote_count";
  (if is_none max_vote_count && truthy has_max_vote_count
   then self_add_error "max_vote_count" max_vote_count_required
   else mret tt);;
  if negb (is_none max_vote_count)
  then
    negative ← lift (py_lt max_vote_count (PInt 0));
    if negative : bool
    then self_add_error "max_vote_count" max_vote_count_positive
    else mret tt
  else mret tt.

Definition max_selection_too_small : ValidationError :=
  mkValidationError
    "Ensure this value is greater than or equal to the min selection."
    (Some "max_selection_too_small") [].

Definition min_selection_too_big (len : Z) : ValidationError :=
  mkValidationError
    "Ensure this value is less than or equal to the number of choices (%(len)s)."
    (Some "max_selection_too_small") [("len", PInt len)].

Definition check_selection_bounds : M SuperForm unit :=
  min_selection ← cleaned_get "min_selection";
  max_selection ← cleaned_get "max_selection";
  choices ← (λ self, c ← odict_item (formsets self) "choices"; Ok (c, self));
  (if negb (is_none min_selection) && negb (is_none max_selection)
   then
     above ← lift (py_gt min_selection max_selection);
     if above : bool
     then self_add_error "max_selection" max_selection_too_small
     else mret tt
   else mret tt);;
  if negb (is_none min_selection)
  then
    above ← lift (py_gt min_selection (PInt (formset_len choices)));
    if above : bool
    then self_add_error "min_selection"
           (min_selection_too_big (formset_len choices))
    else mret tt
  else mret tt.

Definition total_vote_count_too_big : ValidationError :=
  mkValidationError
    "Ensure total vote count is less than or equal to the max vote count."
    (Some "total_vote_count_too_big") [].

Definition check_total_vote_count : M SuperForm pyval :=
  total_vote_count ← cleaned_get "total_vote_count";
  has_max_vote_count ← cleaned_get "has_max_vote_count";
  if negb (truthy has_max_vote_count)
  then mret total_vote_count
  else
    max_vote_count ← cleaned_get "max_vote_count";
    if truthy max_vote_count
    then
      above ← lift (py_gt total_vote_count max_vote_count);
      if above : bool
      then self_add_error "max_vote_count" total_vote_count_too_big;;
           mret PNone
      else mret PNone
    else mret PNone.

Definition please_correct (error_count : Z) : ValidationError :=
  mkValidationError "Please correct the error(s) below (%(len)s total)."
    None [("len", PInt error_count)].

Section clean.
(** [super().clean()] is the framework's. *)
Variable super_clean : M SuperForm unit.
(** [formset.full_clean()] for the formset declared under a name: the
    method of that formset's class. *)
Variable full_clean : string → FormSet → result FormSet.

(** [for _, formset in self.formsets.items():
       error_count += formset.total_error_count()]; the formsets are left
    as the calls leave them. *)
Fixpoint count_formsets (items : list (string * FormSet)) (error_count : Z)
  : result (Z * list (string * FormSet)) :=
  match items with
  | [] => Ok (error_count, [])
  | (name, formset) :: rest =>
      '(n, formset) ← total_error_count (full_clean name) formset;
      '(error_count, rest) ← count_formsets rest (error_count + n);
      Ok (error_count, (name, formset) :: rest)
  end.

(** [len(self.errors)] plus every formset's [total_error_count()] *)
Definition error_count : M SuperForm Z :=
  λ self,
    '(n, counted) ← count_formsets (formsets self)
                      (Z.of_nat (size (errors (form self))));
    Ok (n, mkSuperForm (form self) counted).

(** The four related-field checks, in the order [clean] runs them. *)
Definition checks : M SuperForm unit :=
  super_clean;;
  check_vote_end;;
  check_max_vote_count;;
  check_selection_bounds;;
  check_total_vote_count;;
  mret tt.

Definition clean : M SuperForm unit :=
  checks;;
  n ← error_count;
  if n >? 0
  then self_add_error NON_FIELD_ERRORS (please_correct n)
  else mret tt.
End clean.

End QuestionForm.

Module QuestionDetailView.

(** A stored file, as a file field gives it: its name and its url. *)
Record File : Type := mkFile {
  file_name : string;
  file_url : string;
}.

(** What a row of the detail page holds: a plain value, the file of a
    file field, or markup marked safe. *)
Inductive shown : Type :=
| Plain (value : pyval)
| FieldFile (file : File)
| Markup (html : string).

(** [bool(item[1])]; the file of a file field is true when it has a
    name. *)
Definition shown_truthy (value : shown) : bool :=
  match value with
  | Plain value => truthy value
  | FieldFile file => negb (String.eqb (file_name file) "")
  | Markup html => negb (String.eqb html "")
  end.

Definition image_html (file : File) : string :=
  "<img class='thumbnail' src='" +:+ file_url file +:+ "' alt='"
    +:+ file_name file +:+ "'>".

Definition link_html (file : File) : string :=
  "<a href='" +:+ file_url file +:+ "'>" +:+ file_name file +:+ "</a>".

Section get_object_data.
(** The title-cased verbose name of the question's [thumbnail] field. *)
Variable thumbnail_name : string.
(** [get_html_list], of the project's utilities. *)
Variable get_html_list : list shown → shown.

(** One turn of the loop over the rows of the base view. Only a file has
    the attributes [url] and [name]. *)
Definition show_item (item : string * shown) : result (string * shown) :=
  if String.eqb item.1 thumbnail_name
  then
    if shown_truthy item.2
    then
      match item.2 with
      | FieldFile file => Ok (item.1, Markup (image_html file))
      | _ => Raise AttributeError
      end
    else Ok (item.1, Plain (PStr "None"))
  else Ok item.

Fixpoint show_items (items : list (string * shown))
  : result (list (string * shown)) :=
  match items with
  | [] => Ok []
  | item :: rest =>
      row ← show_item item;
      rows ← show_items rest;
      Ok (row :: rows)
  end.

Definition attachments_row (attachments : list File) : string * shown :=
  if (0 <? length attachments)%nat
  then ("Attachments",
        get_html_list ((λ x, Markup (link_html x)) <$> attachments))
  else ("Attachments", Plain (PStr "None")).

(** The rows the generator yields, in order: [items] are those of the
    base view, [attachments] the files of [question.attachment_set]. *)
Definition get_object_data (items : list (string * shown))
    (attachments : list File) : result (list (string * shown)) :=
  rows ← show_items items;
  Ok (rows ++ [attachments_row attachments]).

End get_object_data.
End QuestionDetailView.

(** ** cms/polls/views/user.py: [UserFilter] *)

Module UserFilter.

(** A row of the user table. *)
Record User : Type := mkUser {
  pk : Z;
  account_id : Z;
  group : string;
}.

Global Instance User_eq_dec : EqDecision User.
Proof. solve_decision. Defined.

Section orm.
(** The multi-valued relations of the user model that [Count] can
    follow, each by its join table: pairs of the user's primary key and
    the key of one related record. For [user_followed] these are the
    rows of the followers table, read from the followed user. *)
Variable relations : gmap string (list (Z * Z)).

(** [FROM user LEFT OUTER JOIN rel ON user.id = rel.user_id]: a user
    with no related record keeps one row, with a NULL. *)
Definition join_rows (rel : list (Z * Z)) (u : User)
  : list (User * option Z) :=
  match filter (λ r, r.1 = pk u) rel with
  | [] => [(u, None)]
  | matches => (λ r, (u, Some r.2)) <$> matches
  end.

Definition left_outer_join (qs : list User) (rel : list (Z * Z))
  : list (User * option Z) :=
  u ← qs; join_rows rel u.

(** [GROUP BY] the user's columns: one group per distinct user, with
    the joined column of its rows. *)
Definition group_by (rows : list (User * option Z))
  : list (User * list (option Z)) :=
  (λ u, (u, snd <$> filter (λ r, r.1 = u) rows)) <$> remove_dups (fst <$> rows).

(** [COUNT(column)] counts the rows where the column is not NULL. *)
Definition count_column (column : list (option Z)) : Z :=
  Z.of_nat (length (filter is_Some column)).

(** [queryset.annotate(name_count=Count(name))] *)
Definition annotate_count (queryset : list User) (name : string)
  : result (list (User * Z)) :=
  match relations !! name with
  | None => Raise FieldError
  | Some rel =>
      Ok ((λ g, (g.1, count_column g.2))
            <$> group_by (left_outer_join queryset rel))
  end.

(** [int(value)] for a decimal: the fraction is dropped, toward zero. *)
Definition py_int (value : Q) : Z := Z.quot (Qnum value) (Z.pos (Qden value)).

(** [qs.filter(name_count__gte=value)]; the filter's value is a decimal,
    and the count is an integer column: the ORM prepares the value that
    is compared with it by [int(value)]. *)
Definition filter_name_count_gte (qs : list (User * Z)) (value : Q)
  : list (User * Z) :=
  filter (λ row, py_int value ≤ row.2) qs.

Definition filter_count_gte (queryset : list User) (name : string)
    (value : Q) : result (list (User * Z)) :=
  qs ← annotate_count queryset name;
  Ok (filter_name_count_gte qs value).

(** The number of records related to [u]. *)
Definition related_count (rel : list (Z * Z)) (u : User) : Z :=
  Z.of_nat (length (filter (λ r, r.1 = pk u) rel)).

End orm.
End UserFilter.


(** The text of an error, [message % params], for messages with one
    integer placeholder, as all of the messages here that have [params]. *)
Definition render (error : ValidationError) : string :=
  match params error with
  | [(key, PInt n)] =>
      match split_once ("%(" +:+ key +:+ ")s") (message error) with
      | Some (before, after) => before +:+ pretty n +:+ after
      | None => message error
      end
  | _ => message error
  end.

(** ** What the properties speak of *)

(** The cleaned value of a field of the form, [None] when it has none. *)
Definition cleaned (self : SuperForm) (key : string) : pyval :=
  dict_get (cleaned_data (form self)) key PNone.

(** What the framework's field cleaning leaves in [cleaned_data]: a
    value of the field's type, or [None]. *)
Definition datetime_or_none (v : pyval) : Prop :=
  match v with PNone | PDateTime _ => True | _ => False end.
Definition int_or_none (v : pyval) : Prop :=
  match v with PNone | PInt _ => True | _ => False end.

(** A form has errors when its error dict is not empty (the test behind
    Django's [is_valid]); a formset, when its validation has found a
    formset-level error or errors in one of its counted forms; the tree of
    a [SuperForm], when the parent form or one of its nested formsets has. *)
Definition form_has_errors (self : Form) : Prop := errors self ≠ ∅.

Definition formset_has_errors (fs : FormSet) : Prop :=
  ∃ v, validation fs = Some v
       ∧ (_non_form_errors v ≠ []
          ∨ ∃ form_errors : ErrorDict,
              form_errors ∈ _errors v ∧ form_errors ≠ ∅).

Definition tree_has_errors (self : SuperForm) : Prop :=
  form_has_errors (form self)
  ∨ ∃ name fs, (name, fs) ∈ formsets self ∧ formset_has_errors fs.

(** The total error count of a validated formset: the number of its
    formset-level errors plus the number of entries of every collected
    error dict. *)
Definition error_total (fs : FormSet) : Z :=
  match validation fs with
  | Some v =>
      Z.of_nat (length (_non_form_errors v))
      + foldr Z.add 0
          ((λ form_errors : ErrorDict, Z.of_nat (size form_errors)) <$> _errors v)
  | None => 0
  end.

(** The sum of the nested formsets' total error counts. *)
Definition formsets_error_count (self : SuperForm) : Z :=
  foldr Z.add 0 ((λ item, error_total item.2) <$> formsets self).

(** The followers of a formset's forms that are not marked for deletion,
    in form order, and what it is for two of them to be the same. *)
Definition counted_forms (self : FormSet) : list Form :=
  filter (λ form, can_delete self && should_delete_form form = false)
    (forms self).

Definition followers_of (self : FormSet) : list pyval :=
  (λ form, dict_get (cleaned_data form) "follower" PNone) <$> counted_forms self.

Definition same_value_twice (values : list pyval) : Prop :=
  ∃ (i j : nat) x y,
    (i < j)%nat ∧ values !! i = Some x ∧ values !! j = Some y
    ∧ py_eq y x = true.

(** The loop's test, from the followers collected so far. *)
Fixpoint repeats_from (seen values : list pyval) : bool :=
  match values with
  | [] => false
  | x :: values' => py_in x seen || repeats_from (seen ++ [x]) values'
  end.

(** A follower form, by its cleaned follower and deletion mark. *)
Definition follower_form (follower : pyval) (delete : bool) : Form :=
  mkForm true ∅ ∅
    (list_to_map [("follower", follower); ("DELETE", PBool delete)]) ∅.

(** [sub in s] for strings *)
Definition contains (sub s : string) : Prop :=
  ∃ before after, s = before +:+ sub +:+ after.

(** How a related-field check may leave the form: same fields and
    formsets, every cleaned value kept or dropped, the total kept. *)
Definition after_checks (self self' : SuperForm) : Prop :=
  fields (form self') = fields (form self)
  ∧ formsets self' = formsets self
  ∧ (∀ key, cleaned self' key = cleaned self key ∨ cleaned self' key = PNone)
  ∧ cleaned self' "total_vote_count" = cleaned self "total_vote_count".

(** ** A question form to run the code on *)

(** The fields [QuestionForm.Meta] lists. *)
Definition question_field_names : list string :=
  ["question_text"; "total_vote_count"; "thumbnail"; "creator";
   "show_creator"; "pub_date"; "vote_start"; "vote_end"; "show_vote";
   "has_max_vote_count"; "max_vote_count"; "min_selection";
   "max_selection"; "allow_custom"].

Definition question_fields : gmap string Field :=
  list_to_map ((λ name, (name, mkField ∅)) <$> question_field_names).

Definition empty_form : Form := mkForm true ∅ ∅ ∅ ∅.

(** A bound question form after field cleaning, with the given cleaned
    data and errors, no attachments or followers, and [n] valid choices.
    The nested formsets have not been validated yet. *)
Definition question_form (data : list (string * pyval))
    (errs : list (string * list ValidationError)) (n : nat) : SuperForm :=
  mkSuperForm
    (mkForm true ∅ question_fields (list_to_map data) (list_to_map errs))
    [("attachments", mkFormSet [] true None);
     ("q_followers", mkFormSet [] true None);
     ("choices", mkFormSet (replicate n empty_form) true None)].

(** A formset validation to run the code with: what [full_clean] fills in
    on a bound formset whose own [clean] adds nothing, the error dict of
    every form not marked for deletion and no formset-level error. *)
Definition collected (self : FormSet) : FormSet :=
  mkFormSet (forms self) (can_delete self)
    (Some (mkValidation (errors <$> counted_forms self) [])).

Definition collect_form_errors (name : string) (self : FormSet)
  : result FormSet :=
  Ok (collected self).

(** The form with every nested formset validated in that way. *)
Definition with_collected (self : SuperForm) : SuperForm :=
  mkSuperForm (form self) ((λ item, (item.1, collected item.2)) <$> formsets self).

(** ** What a related-field check may do to the form *)

(** One [add_error] on one of the fields [keys], or nothing. *)
Definition one_step (keys : list string) (self self' : SuperForm) : Prop :=
  self' = self
  ∨ ∃ field error,
      field ∈ keys
      ∧ self' = set_form (record_error field error (form self)) self.

(** What the last step of [QuestionForm.clean] does with the count. *)
Definition aggregate (n : Z) (self : SuperForm) : SuperForm :=
  if n >? 0
  then set_form
         (record_error NON_FIELD_ERRORS (QuestionForm.please_correct n)
            (form self)) self
  else self.

(** The fields [QuestionForm.clean] may add an error to. *)
Definition checked_fields : list string :=
  ["vote_end"; "max_vote_count"; "max_selection"; "min_selection";
   NON_FIELD_ERRORS].

(** Nothing of the parent form has changed but the errors and cleaned
    values of the fields [keys]. *)
Definition unchanged_outside (keys : list string) (self self' : SuperForm)
  : Prop :=
  fields (form self') = fields (form self)
  ∧ is_bound (form self') = is_bound (form self)
  ∧ initial (form self') = initial (form self)
  ∧ ∀ key, key ∉ keys →
      errors (form self') !! key = errors (form self) !! key
      ∧ cleaned_data (form self') !! key = cleaned_data (form self) !! key.

(** * Properties *)

(** ** The monad and [add_error] *)

Ltac run :=
  repeat (unfold mbind, mret, M_bind, M_ret, result_bind, result_ret,
            lift, gets in *; cbn in *).

Lemma add_error_known (field : string) (error : ValidationError) (self : Form) :
  is_Some (fields self !! field) →
  add_error field error self = Ok (record_error field error self).
Proof.
  intros [fld Hfld]. unfold add_error.
  rewrite (bool_decide_eq_false_2 (fields self !! field = None)) by congruence.
  by rewrite andb_false_r.
Qed.

Lemma add_error_non_field (error : ValidationError) (self : Form) :
  add_error NON_FIELD_ERRORS error self
  = Ok (record_error NON_FIELD_ERRORS error self).
Proof.
  unfold add_error.
  rewrite (bool_decide_eq_false_2 (NON_FIELD_ERRORS ≠ NON_FIELD_ERRORS)) by auto.
  by rewrite andb_false_r.
Qed.

Lemma field_errors_record (field : string) (error : ValidationError) (self : Form) :
  field_errors (record_error field error self) field
  = field_errors self field ++ [error].
Proof. unfold field_errors, dict_get. cbn. by rewrite lookup_insert_eq. Qed.

Lemma field_errors_record_ne (field other : string) (error : ValidationError)
    (self : Form) :
  field ≠ other →
  field_errors (record_error field error self) other = field_errors self other.
Proof.
  intros Hne. unfold field_errors, dict_get. cbn. by rewrite lookup_insert_ne.
Qed.

Lemma app_singleton_neq {A} (l : list A) (x : A) : l ++ [x] ≠ l.
Proof.
  intros Heq. apply (f_equal length) in Heq. rewrite length_app in Heq.
  cbn in Heq. lia.
Qed.

(** ** [QuestionForm]: the related-field checks, one at a time *)

(** With [vote_start] and [vote_end] cleaned to datetimes or absent,
    [check_vote_end] adds the error [vote_end_too_early] to the field
    [vote_end] if and only if both are present and [vote_end] is strictly
    before [vote_start]; when either is absent, or when the two are equal,
    it leaves the form as it was. *)
Lemma check_vote_end_alone (self : SuperForm) :
  is_Some (fields (form self) !! "vote_end") →
  datetime_or_none (cleaned self "vote_start") →
  datetime_or_none (cleaned self "vote_end") →
  ∃ self',
    QuestionForm.check_vote_end self = Ok (tt, self') ∧
    (field_errors (form self') "vote_end"
       = field_errors (form self) "vote_end" ++ [QuestionForm.vote_end_too_early]
     ↔ ∃ s e, cleaned self "vote_start" = PDateTime s
              ∧ cleaned self "vote_end" = PDateTime e ∧ e < s) ∧
    (¬ (∃ s e, cleaned self "vote_start" = PDateTime s
               ∧ cleaned self "vote_end" = PDateTime e ∧ e < s) →
     self' = self) ∧
    (cleaned self "vote_start" = PNone ∨ cleaned self "vote_end" = PNone
     ∨ cleaned self "vote_start" = cleaned self "vote_end" →
     self' = self).
Proof.
  intros Hfield Hs He. unfold QuestionForm.check_vote_end, QuestionForm.cleaned_get.
  run. fold (cleaned self "vote_end") (cleaned self "vote_start").
  destruct (cleaned self "vote_start") as [| | | |s|] eqn:Es; try done;
    destruct (cleaned self "vote_end") as [| | | |e|] eqn:Ee; try done; cbn.
  1-3: eexists; split; [reflexivity|]; split; [|by auto];
       split; [intros H; symmetry in H; by apply app_singleton_neq in H
              |intros (s' & e' & ? & ? & ?); congruence].
  destruct (s >? e) eqn:Hgt.
  - unfold QuestionForm.self_add_error. run.
    rewrite add_error_known by done. cbn.
    eexists; split; [reflexivity|]. cbn. apply Z.gtb_lt in Hgt.
    split; [|split].
    + rewrite field_errors_record. split; [|done]. intros _. by exists s, e.
    + intros Hno. contradict Hno. by exists s, e.
    + intros [?|[?|Heq]]; try done. injection Heq as ->. lia.
  - eexists; split; [reflexivity|].
    assert (¬ e < s) by (rewrite Z.gtb_ltb in Hgt; apply Z.ltb_ge in Hgt; lia).
    split; [|by auto].
    split; [intros H'; symmetry in H'; by apply app_singleton_neq in H'
           |intros (s' & e' & ? & ? & ?); simplify_eq; lia].
Qed.

(** With [max_vote_count] cleaned to an integer or absent,
    [check_max_vote_count] adds the error [max_vote_count_required] to the
    field [max_vote_count] if and only if the cleaned [max_vote_count] is
    absent while the cleaned [has_max_vote_count] is true; it adds the error
    [max_vote_count_positive] if and only if [max_vote_count] is present and
    negative; a [max_vote_count] of zero or more leaves the form as it was. *)
Lemma check_max_vote_count_alone (self : SuperForm) :
  is_Some (fields (form self) !! "max_vote_count") →
  int_or_none (cleaned self "max_vote_count") →
  ∃ self',
    QuestionForm.check_max_vote_count self = Ok (tt, self') ∧
    (field_errors (form self') "max_vote_count"
       = field_errors (form self) "max_vote_count"
         ++ [QuestionForm.max_vote_count_required]
     ↔ cleaned self "max_vote_count" = PNone
       ∧ truthy (cleaned self "has_max_vote_count") = true) ∧
    (field_errors (form self') "max_vote_count"
       = field_errors (form self) "max_vote_count"
         ++ [QuestionForm.max_vote_count_positive]
     ↔ ∃ n, cleaned self "max_vote_count" = PInt n ∧ n < 0) ∧
    (∀ n, cleaned self "max_vote_count" = PInt n → 0 ≤ n → self' = self) ∧
    (cleaned self "max_vote_count" = PNone →
     truthy (cleaned self "has_max_vote_count") = false → self' = self).
Proof.
  intros Hfield Hint.
  unfold QuestionForm.check_max_vote_count, QuestionForm.cleaned_get.
  run. fold (cleaned self "max_vote_count") (cleaned self "has_max_vote_count").
  destruct (cleaned self "max_vote_count") as [| |n| | |] eqn:En; try done; cbn.
  - destruct (truthy (cleaned self "has_max_vote_count")) eqn:Eh; cbn.
    + unfold QuestionForm.self_add_error. run.
      rewrite add_error_known by done. cbn.
      eexists; split; [reflexivity|]. cbn. rewrite field_errors_record.
      split; [|split; [|split]]; try done.
      split; [|intros (n & ? & _); done].
      intros H. by apply app_inv_head in H.
    + eexists; split; [reflexivity|].
      split; [|split; [|split]]; try done.
      * split; [|intros [_ ?]; done].
        intros H; symmetry in H; by apply app_singleton_neq in H.
      * split; [|intros (n & ? & _); done].
        intros H; symmetry in H; by apply app_singleton_neq in H.
  - unfold py_lt, py_gt. cbn. destruct (0 >? n) eqn:Hneg.
    + apply Z.gtb_lt in Hneg. unfold QuestionForm.self_add_error. run.
      rewrite add_error_known by done. cbn.
      eexists; split; [reflexivity|]. cbn. rewrite field_errors_record.
      split; [|split; [|split]]; try done.
      * split; [|intros [? _]; done]. intros H. by apply app_inv_head in H.
      * split; [|done]. intros _. by exists n.
      * intros m [= <-] ?. lia.
    + assert (0 ≤ n) by (rewrite Z.gtb_ltb in Hneg; by apply Z.ltb_ge in Hneg).
      eexists; split; [reflexivity|].
      split; [|split; [|split]]; try done.
      * split; [|intros [? _]; done].
        intros H'; symmetry in H'; by apply app_singleton_neq in H'.
      * split; [|intros (m & [= <-] & ?); lia].
        intros H'; symmetry in H'; by apply app_singleton_neq in H'.
Qed.

Lemma fields_record_error (field : string) (error : ValidationError) (self : Form) :
  fields (record_error field error self) = fields self.
Proof. reflexivity. Qed.

Ltac not_added :=
  let H := fresh in intros H; symmetry in H; by apply app_singleton_neq in H.

(** With the selection bounds cleaned to integers
    or absent and [n] choice forms in the [choices] formset,
    [check_selection_bounds] adds the error [max_selection_too_small] to
    the field [max_selection] if and only if both bounds are present and
    [min_selection > max_selection], and adds an error to the field
    [min_selection] if and only if [min_selection] is present and exceeds
    [n]. Only [min_selection] is compared with [n]: when [min_selection] is
    absent, or is at most [n] and at most a present [max_selection], the
    form is left as it was, whatever [max_selection] is. *)
Lemma check_selection_bounds_alone (self : SuperForm) (choices : FormSet) :
  is_Some (fields (form self) !! "min_selection") →
  is_Some (fields (form self) !! "max_selection") →
  int_or_none (cleaned self "min_selection") →
  int_or_none (cleaned self "max_selection") →
  odict_item (formsets self) "choices" = Ok choices →
  ∃ self',
    QuestionForm.check_selection_bounds self = Ok (tt, self') ∧
    (field_errors (form self') "max_selection"
       = field_errors (form self) "max_selection"
         ++ [QuestionForm.max_selection_too_small]
     ↔ ∃ lo hi, cleaned self "min_selection" = PInt lo
                ∧ cleaned self "max_selection" = PInt hi ∧ lo > hi) ∧
    (field_errors (form self') "min_selection"
       = field_errors (form self) "min_selection"
         ++ [QuestionForm.min_selection_too_big (formset_len choices)]
     ↔ ∃ lo, cleaned self "min_selection" = PInt lo
             ∧ lo > formset_len choices) ∧
    (cleaned self "min_selection" = PNone
     ∨ (∃ lo, cleaned self "min_selection" = PInt lo
              ∧ lo ≤ formset_len choices
              ∧ (cleaned self "max_selection" = PNone
                 ∨ ∃ hi, cleaned self "max_selection" = PInt hi ∧ lo ≤ hi)) →
     self' = self).
Proof.
  intros Hmin Hmax Tmin Tmax Hchoices.
  unfold QuestionForm.check_selection_bounds, QuestionForm.cleaned_get.
  run. rewrite Hchoices. cbn.
  fold (cleaned self "min_selection") (cleaned self "max_selection").
  set (n := formset_len choices).
  destruct (cleaned self "min_selection") as [| |lo| | |] eqn:Elo; try done; cbn.
  { eexists; split; [reflexivity|].
    split; [|split]; [split; [not_added|by intros (? & ? & ? & _)]
                     |split; [not_added|by intros (? & ? & _)]|done]. }
  assert (Hgt : ∀ a b, (a >? b) = false → a ≤ b)
    by (intros a b Hab; rewrite Z.gtb_ltb in Hab; by apply Z.ltb_ge in Hab).
  unfold QuestionForm.self_add_error.
  destruct (cleaned self "max_selection") as [| |hi| | |] eqn:Ehi; try done; cbn.
  - destruct (lo >? n) eqn:Hn; run.
    + apply Z.gtb_lt in Hn. rewrite add_error_known by done. cbn.
      eexists; split; [reflexivity|]. cbn.
      rewrite field_errors_record, field_errors_record_ne by done.
      split; [|split].
      * split; [not_added|by intros (? & ? & ? & ? & _)].
      * split; [|done]. intros _. exists lo. split; [done|lia].
      * intros [?|(lo' & [= <-] & ? & _)]; [done|lia].
    + apply Hgt in Hn. eexists; split; [reflexivity|].
      split; [|split]; [split; [not_added|by intros (? & ? & ? & ? & _)]
                       |split; [not_added|intros (? & [= <-] & ?); lia]|done].
  - destruct (lo >? hi) eqn:Hhi; run.
    + apply Z.gtb_lt in Hhi. rewrite add_error_known by done. cbn.
      destruct (lo >? n) eqn:Hn; run.
      * apply Z.gtb_lt in Hn.
        rewrite add_error_known by (by rewrite fields_record_error). cbn.
        eexists; split; [reflexivity|]. cbn.
        rewrite field_errors_record_ne, !field_errors_record,
          field_errors_record_ne by done.
        split; [|split].
        -- split; [|done]. intros _. exists lo, hi. repeat split; [done..|lia].
        -- split; [|done]. intros _. exists lo. split; [done|lia].
        -- intros [?|(lo' & [= <-] & ? & _)]; [done|lia].
      * apply Hgt in Hn. eexists; split; [reflexivity|]. cbn.
        rewrite field_errors_record, field_errors_record_ne by done.
        split; [|split].
        -- split; [|done]. intros _. exists lo, hi. repeat split; [done..|lia].
        -- split; [not_added|intros (? & [= <-] & ?); lia].
        -- intros [?|(lo' & [= <-] & _ & [?|(hi' & [= <-] & ?)])]; [done..|lia].
    + apply Hgt in Hhi. destruct (lo >? n) eqn:Hn; run.
      * apply Z.gtb_lt in Hn. rewrite add_error_known by done. cbn.
        eexists; split; [reflexivity|]. cbn.
        rewrite field_errors_record, field_errors_record_ne by done.
        split; [|split].
        -- split; [not_added|intros (? & ? & [= <-] & [= <-] & ?); lia].
        -- split; [|done]. intros _. exists lo. split; [done|lia].
        -- intros [?|(lo' & [= <-] & ? & _)]; [done|lia].
      * apply Hgt in Hn. eexists; split; [reflexivity|].
        split; [|split];
          [split; [not_added|intros (? & ? & [= <-] & [= <-] & ?); lia]
          |split; [not_added|intros (? & [= <-] & ?); lia]|done].
Qed.

(** C6 at the input that breaks it: [has_max_vote_count] is true, the
    cleaned [total_vote_count] (5) exceeds the cleaned [max_vote_count]
    (0), and [check_total_vote_count] adds no error: the truth test on
    [max_vote_count] takes 0 for an absent value. *)
Theorem check_total_vote_count_zero_max :
  let self :=
    question_form
      [("has_max_vote_count", PBool true); ("max_vote_count", PInt 0);
       ("total_vote_count", PInt 5)] [] 2 in
  QuestionForm.check_total_vote_count self = Ok (PNone, self)
  ∧ errors (form self) = ∅
  ∧ py_gt (cleaned self "total_vote_count") (cleaned self "max_vote_count")
    = Ok true.
Proof.
  intros self. split; [|split]; vm_compute; reflexivity.
Qed.

(** The same check raises when the total is absent (a field error left
    it out of [cleaned_data]) and a positive maximum is present. *)
Lemma check_total_vote_count_raises :
  QuestionForm.check_total_vote_count
    (question_form
       [("has_max_vote_count", PBool true); ("max_vote_count", PInt 5)] [] 2)
  = Raise TypeError.
Proof. vm_compute. reflexivity. Qed.

(** When [has_max_vote_count] is false or absent the check returns at
    once: no comparison, no error, the form untouched. *)
Lemma check_total_vote_count_no_max (self : SuperForm) :
  truthy (cleaned self "has_max_vote_count") = false →
  QuestionForm.check_total_vote_count self
  = Ok (cleaned self "total_vote_count", self).
Proof.
  intros Hno. unfold QuestionForm.check_total_vote_count, QuestionForm.cleaned_get.
  run. fold (cleaned self "has_max_vote_count"). by rewrite Hno.
Qed.

(** With a present, non-zero maximum and a present total, the error is
    added exactly when the total exceeds the maximum. *)
Lemma check_total_vote_count_nonzero (self : SuperForm) (total maxi : Z) :
  is_Some (fields (form self) !! "max_vote_count") →
  truthy (cleaned self "has_max_vote_count") = true →
  cleaned self "total_vote_count" = PInt total →
  cleaned self "max_vote_count" = PInt maxi →
  maxi ≠ 0 →
  QuestionForm.check_total_vote_count self
  = Ok (PNone,
        if total >? maxi
        then set_form
               (record_error "max_vote_count"
                  QuestionForm.total_vote_count_too_big (form self)) self
        else self).
Proof.
  intros Hfield Hhas Htotal Hmax Hnz.
  unfold QuestionForm.check_total_vote_count, QuestionForm.cleaned_get.
  unfold cleaned in *. run. rewrite Hhas. run. rewrite Hmax. cbn.
  rewrite (proj2 (Z.eqb_neq maxi 0)) by done. run. rewrite Htotal. cbn.
  destruct (total >? maxi); [|done].
  unfold QuestionForm.self_add_error. run. by rewrite add_error_known.
Qed.

(** ** What a related-field check may change *)

Lemma self_add_error_inv (field : string) (error : ValidationError)
    (self self' : SuperForm) (r : unit) :
  QuestionForm.self_add_error field error self = Ok (r, self') →
  self' = set_form (record_error field error (form self)) self.
Proof.
  unfold QuestionForm.self_add_error, add_error. run.
  destruct (_ && _); [done|]. cbn. by intros [= <-].
Qed.

Lemma one_step_add (keys : list string) (field : string)
    (error : ValidationError) (self self' : SuperForm) (r : unit) :
  field ∈ keys →
  QuestionForm.self_add_error field error self = Ok (r, self') →
  one_step keys self self'.
Proof.
  intros Hin Hadd. apply self_add_error_inv in Hadd as ->.
  right. by exists field, error.
Qed.

Ltac in_list := first [ by left | right; in_list ].

Ltac not_in_list :=
  rewrite ?not_elem_of_cons; split_and?; first [ done | apply not_elem_of_nil ].

Ltac branches :=
  repeat match goal with
         | |- context [if ?c then _ else _] => destruct c eqn:?; cbn
         end.

Lemma check_vote_end_step (self self' : SuperForm) (r : unit) :
  QuestionForm.check_vote_end self = Ok (r, self') →
  one_step ["vote_end"] self self'.
Proof.
  unfold QuestionForm.check_vote_end, QuestionForm.cleaned_get. run.
  destruct (dict_get _ "vote_start" PNone), (dict_get _ "vote_end" PNone);
    cbn; branches; try done;
    first [ by (intros [= <-]; left)
          | apply one_step_add; in_list ].
Qed.

Ltac add_cases :=
  repeat match goal with
         | |- context [QuestionForm.self_add_error ?f ?e ?s] =>
             let Hadd := fresh "Hadd" in
             destruct (QuestionForm.self_add_error f e s) as [[[] ?]|] eqn:Hadd;
             cbn; [|done]
         end.

Lemma check_max_vote_count_step (self self' : SuperForm) (r : unit) :
  QuestionForm.check_max_vote_count self = Ok (r, self') →
  one_step ["max_vote_count"] self self'.
Proof.
  unfold QuestionForm.check_max_vote_count, QuestionForm.cleaned_get,
    py_lt, py_gt. run.
  destruct (dict_get _ "max_vote_count" PNone); cbn; branches; try done;
    add_cases; intros Heq; simplify_eq;
    first [ by left | eapply one_step_add; [|eassumption]; in_list ].
Qed.

Lemma check_total_vote_count_step (self self' : SuperForm) (r : pyval) :
  QuestionForm.check_total_vote_count self = Ok (r, self') →
  one_step ["max_vote_count"] self self'
  ∧ (truthy (cleaned self "max_vote_count") = false → self' = self).
Proof.
  unfold QuestionForm.check_total_vote_count, QuestionForm.cleaned_get, cleaned.
  run.
  destruct (truthy (dict_get _ "has_max_vote_count" PNone)); cbn;
    [|intros [= _ <-]; split; [by left|done]].
  destruct (truthy (dict_get _ "max_vote_count" PNone)) eqn:Hmax; cbn;
    [|intros [= _ <-]; split; [by left|done]].
  destruct (py_gt _ _) as [[]|]; cbn; [| |done].
  - add_cases. intros [= _ <-]. split; [|done].
    eapply one_step_add; [|eassumption]. in_list.
  - intros [= _ <-]. split; [by left|done].
Qed.

Lemma check_selection_bounds_step (self self' : SuperForm) (r : unit) :
  QuestionForm.check_selection_bounds self = Ok (r, self') →
  ∃ mid, one_step ["max_selection"] self mid
         ∧ one_step ["min_selection"] mid self'.
Proof.
  unfold QuestionForm.check_selection_bounds, QuestionForm.cleaned_get. run.
  destruct (odict_item (formsets self) "choices") as [choices|]; [|done]. cbn.
  set (min_selection := dict_get _ "min_selection" PNone).
  set (max_selection := dict_get _ "max_selection" PNone).
  assert (Hsecond : ∀ mid,
    (if negb (is_none min_selection)
     then λ s,
       match
         match py_gt min_selection (PInt (formset_len choices)) with
         | Ok a => Ok (a, s)
         | Raise e => Raise e
         end
       with
       | Ok (a, s') =>
           (if a : bool
            then QuestionForm.self_add_error "min_selection"
                   (QuestionForm.min_selection_too_big (formset_len choices))
            else λ s0, Ok ((), s0)) s'
       | Raise e => Raise e
       end
     else λ s, Ok ((), s)) mid = Ok (r, self') →
    one_step ["min_selection"] mid self').
  { intros mid. destruct (negb (is_none min_selection));
      [|by (intros Heq; simplify_eq; left)].
    destruct (py_gt min_selection _) as [[]|]; [| |done].
    - apply one_step_add. in_list.
    - intros Heq; simplify_eq. by left. }
  destruct (negb (is_none min_selection) && negb (is_none max_selection)).
  - destruct (py_gt min_selection max_selection) as [[]|]; [| |done].
    + destruct (QuestionForm.self_add_error "max_selection" _ self)
        as [[[] mid]|] eqn:Hadd; [|done].
      intros Hrest. exists mid. split; [|by apply Hsecond].
      eapply one_step_add; [|eassumption]. in_list.
    + intros Hrest. exists self. split; [by left|by apply Hsecond].
  - intros Hrest. exists self. split; [by left|by apply Hsecond].
Qed.

Lemma one_step_frame (keys : list string) (self self' : SuperForm) :
  one_step keys self self' →
  fields (form self') = fields (form self)
  ∧ is_bound (form self') = is_bound (form self)
  ∧ initial (form self') = initial (form self)
  ∧ formsets self' = formsets self
  ∧ ∀ key, key ∉ keys →
      errors (form self') !! key = errors (form self) !! key
      ∧ cleaned_data (form self') !! key = cleaned_data (form self) !! key.
Proof.
  intros [->|(field & error & Hin & ->)]; [done|]. cbn.
  split_and!; try done. intros key Hkey.
  assert (field ≠ key) by (by intros ->).
  by rewrite lookup_insert_ne, lookup_delete_ne.
Qed.

(** A step appends at most one error to a field's list; when it does, the
    field is one of [keys] and has left the cleaned data. *)
Lemma one_step_errors (keys : list string) (self self' : SuperForm)
    (key : string) :
  one_step keys self self' →
  ∃ added,
    field_errors (form self') key = field_errors (form self) key ++ added
    ∧ (length added ≤ 1)%nat
    ∧ (added ≠ [] → key ∈ keys ∧ cleaned self' key = PNone).
Proof.
  intros [->|(field & error & Hin & ->)].
  - exists []. rewrite app_nil_r. split_and!; [done|cbn; lia|done].
  - destruct (decide (field = key)) as [->|Hne].
    + exists [error]. cbn. rewrite field_errors_record.
      split_and!; [done|lia|]. intros _. split; [done|].
      unfold cleaned, dict_get. cbn. by rewrite lookup_delete_eq.
    + exists []. cbn. rewrite field_errors_record_ne by done.
      rewrite app_nil_r. split_and!; [done|lia|done].
Qed.

Lemma one_step_cleaned (keys : list string) (self self' : SuperForm)
    (key : string) :
  one_step keys self self' →
  cleaned self' key = cleaned self key ∨ cleaned self' key = PNone.
Proof.
  intros [->|(field & error & Hin & ->)]; [by left|].
  unfold cleaned, dict_get. cbn. destruct (decide (field = key)) as [->|Hne].
  - right. by rewrite lookup_delete_eq.
  - left. by rewrite lookup_delete_ne.
Qed.

(** ** Counting the nested formsets' errors *)

Lemma sum_pos_iff {A} (f : A → Z) (l : list A) :
  (∀ x, 0 ≤ f x) →
  0 ≤ foldr Z.add 0 (f <$> l)
  ∧ (0 < foldr Z.add 0 (f <$> l) ↔ ∃ x, x ∈ l ∧ 0 < f x).
Proof.
  intros Hf. induction l as [|a l [IHnn IH]]; cbn.
  - split; [lia|]. split; [lia|]. intros (x & Hx & _). by apply elem_of_nil in Hx.
  - pose proof (Hf a). split; [lia|]. split.
    + intros Hpos. destruct (decide (0 < f a)) as [Ha|Ha].
      * exists a. split; [left|done].
      * destruct (proj1 IH) as (x & Hx & Hfx); [lia|].
        exists x. split; [by right|done].
    + intros (x & Hx & Hfx). apply elem_of_cons in Hx as [->|Hx]; [lia|].
      assert (0 < foldr Z.add 0 (f <$> l)) by (apply IH; eauto). lia.
Qed.

(** On a validated formset [total_error_count] reads what is stored and
    leaves the formset as it is. *)
Lemma total_error_count_validated (full_clean : FormSet → result FormSet)
    (fs : FormSet) :
  is_Some (validation fs) →
  total_error_count full_clean fs = Ok (error_total fs, fs).
Proof.
  intros [v Hv].
  unfold total_error_count, non_form_errors, formset_errors, error_total.
  run. rewrite Hv. cbn. by rewrite Hv.
Qed.

(** When [total_error_count] returns, the formset is validated, the number
    is its total, and the formset is the one it was if that was validated
    already, and what its [full_clean] made of it if not. *)
Lemma total_error_count_inv (full_clean : FormSet → result FormSet)
    (fs fs' : FormSet) (n : Z) :
  total_error_count full_clean fs = Ok (n, fs') →
  is_Some (validation fs')
  ∧ n = error_total fs'
  ∧ (is_Some (validation fs) ∧ fs' = fs
     ∨ validation fs = None ∧ full_clean fs = Ok fs').
Proof.
  destruct (validation fs) as [v|] eqn:Hv.
  - rewrite total_error_count_validated by (by rewrite Hv).
    intros [= <- <-]. rewrite Hv. split_and!; [by eexists|done|].
    left. split; [by eexists|done].
  - unfold total_error_count, non_form_errors, formset_errors, error_total.
    run. rewrite Hv. destruct (full_clean fs) as [fs1|] eqn:Hfc; [|done]. cbn.
    destruct (validation fs1) as [v1|] eqn:Hv1; [|done]. cbn.
    rewrite Hv1. cbn. intros [= <- <-]. rewrite Hv1.
    split_and!; [by eexists|done|]. by right.
Qed.

Lemma error_total_nonneg (fs : FormSet) : 0 ≤ error_total fs.
Proof.
  unfold error_total. destruct (validation fs) as [v|]; [|done].
  pose proof (proj1 (sum_pos_iff (λ form_errors : ErrorDict,
                Z.of_nat (size form_errors)) (_errors v)
                (λ d, Nat2Z.is_nonneg (size d)))).
  lia.
Qed.

Lemma error_total_pos (fs : FormSet) :
  0 < error_total fs ↔ formset_has_errors fs.
Proof.
  unfold error_total, formset_has_errors.
  destruct (validation fs) as [v|]; [|split; [lia|by intros (? & ? & _)]].
  destruct (sum_pos_iff (λ form_errors : ErrorDict,
              Z.of_nat (size form_errors)) (_errors v)
              (λ d, Nat2Z.is_nonneg (size d)))
    as [Hnn Hiff].
  split.
  - intros Hpos. exists v. split; [done|].
    destruct (_non_form_errors v) as [|e l] eqn:Enf; [|by left].
    right. cbn in Hpos. destruct (proj1 Hiff) as (d & Hd & Hsize); [lia|].
    exists d. split; [done|]. intros ->. by rewrite map_size_empty in Hsize.
  - intros (v' & [= <-] & [Hnf|(d & Hd & Hne)]).
    + destruct (_non_form_errors v); [done|]. cbn. lia.
    + assert (0 < foldr Z.add 0
                ((λ form_errors : ErrorDict, Z.of_nat (size form_errors))
                   <$> _errors v)).
      { apply Hiff. exists d. split; [done|].
        assert (size d ≠ 0%nat) by (by rewrite map_size_empty_iff). lia. }
      lia.
Qed.

(** The loop over the formsets: names and order are kept, every formset
    ends validated, one that was validated already is untouched and the
    others are what their [full_clean] made of them; the count grows by
    the formsets' totals. *)
Lemma count_formsets_inv (full_clean : string → FormSet → result FormSet)
    (items items' : list (string * FormSet)) (k n : Z) :
  QuestionForm.count_formsets full_clean items k = Ok (n, items') →
  n = k + foldr Z.add 0 ((λ item, error_total item.2) <$> items')
  ∧ Forall2
      (λ old new : string * FormSet,
         new.1 = old.1
         ∧ is_Some (validation new.2)
         ∧ (is_Some (validation old.2) ∧ new.2 = old.2
            ∨ validation old.2 = None ∧ full_clean old.1 old.2 = Ok new.2))
      items items'.
Proof.
  revert items' k n. induction items as [|[name fs] items IH];
    intros items' k n; cbn.
  - intros [= <- <-]. cbn. split; [lia|constructor].
  - run.
    destruct (total_error_count (full_clean name) fs) as [[m fs']|] eqn:Htotal;
      [|done]. cbn.
    destruct (QuestionForm.count_formsets full_clean items (k + m))
      as [[n' rest]|] eqn:Hrest; [|done]. cbn.
    intros [= <- <-]. apply IH in Hrest as [-> Hall].
    apply total_error_count_inv in Htotal as (Hv & -> & Hfs).
    split; [cbn; lia|]. by constructor.
Qed.

(** Validated formsets are counted without running anything. *)
Lemma count_formsets_validated (full_clean : string → FormSet → result FormSet)
    (items : list (string * FormSet)) (k : Z) :
  Forall (λ item, is_Some (validation item.2)) items →
  QuestionForm.count_formsets full_clean items k
  = Ok (k + foldr Z.add 0 ((λ item, error_total item.2) <$> items), items).
Proof.
  intros Hall. revert k. induction Hall as [|[name fs] items Hv _ IH]; intros k.
  - cbn. do 2 f_equal. lia.
  - cbn. rewrite total_error_count_validated by done. run. rewrite IH. cbn.
    do 2 f_equal. lia.
Qed.

(** ** [QuestionForm.clean], step by step *)

(** [clean], when it returns, is base validation, the four checks, the
    count over the formsets and the aggregate error, in the order of the
    source. *)
Lemma clean_run (super_clean : M SuperForm unit)
    (full_clean : string → FormSet → result FormSet)
    (self self' : SuperForm) (r : unit) :
  QuestionForm.clean super_clean full_clean self = Ok (r, self') →
  ∃ base s1 s2 s3 v s4 n counted,
    super_clean self = Ok (tt, base)
    ∧ QuestionForm.check_vote_end base = Ok (tt, s1)
    ∧ QuestionForm.check_max_vote_count s1 = Ok (tt, s2)
    ∧ QuestionForm.check_selection_bounds s2 = Ok (tt, s3)
    ∧ QuestionForm.check_total_vote_count s3 = Ok (v, s4)
    ∧ QuestionForm.checks super_clean self = Ok (tt, s4)
    ∧ QuestionForm.count_formsets full_clean (formsets s4)
        (Z.of_nat (size (errors (form s4)))) = Ok (n, counted)
    ∧ self' = aggregate n (mkSuperForm (form s4) counted).
Proof.
  unfold QuestionForm.clean, QuestionForm.checks, QuestionForm.error_count. run.
  destruct (super_clean self) as [[[] base]|] eqn:Hbase; [|done].
  destruct (QuestionForm.check_vote_end base) as [[[] s1]|] eqn:H1; [|done].
  destruct (QuestionForm.check_max_vote_count s1) as [[[] s2]|] eqn:H2; [|done].
  destruct (QuestionForm.check_selection_bounds s2) as [[[] s3]|] eqn:H3;
    [|done].
  destruct (QuestionForm.check_total_vote_count s3) as [[v s4]|] eqn:H4;
    [|done].
  cbn.
  destruct (QuestionForm.count_formsets full_clean (formsets s4) _)
    as [[n counted]|] eqn:Hcount; [|done].
  cbn. intros Hagg. exists base, s1, s2, s3, v, s4, n, counted.
  split_and!; try done. unfold aggregate.
  destruct (n >? 0).
  - by apply self_add_error_inv in Hagg.
  - by simplify_eq.
Qed.

(** The same run by what each step may change. *)
Lemma clean_chain (super_clean : M SuperForm unit)
    (full_clean : string → FormSet → result FormSet)
    (self self' : SuperForm) (r : unit) :
  QuestionForm.clean super_clean full_clean self = Ok (r, self') →
  ∃ base s1 s2 mid s3 s4 n counted,
    super_clean self = Ok (tt, base)
    ∧ one_step ["vote_end"] base s1
    ∧ one_step ["max_vote_count"] s1 s2
    ∧ one_step ["max_selection"] s2 mid
    ∧ one_step ["min_selection"] mid s3
    ∧ one_step ["max_vote_count"] s3 s4
    ∧ (truthy (cleaned s3 "max_vote_count") = false → s4 = s3)
    ∧ QuestionForm.count_formsets full_clean (formsets s4)
        (Z.of_nat (size (errors (form s4)))) = Ok (n, formsets counted)
    ∧ form counted = form s4
    ∧ one_step [NON_FIELD_ERRORS] counted self'.
Proof.
  intros Hclean.
  apply clean_run in Hclean
    as (base & s1 & s2 & s3 & v & s4 & n & counted & Hbase & H1 & H2 & H3 & H4
        & _ & Hcount & ->).
  apply check_vote_end_step in H1. apply check_max_vote_count_step in H2.
  apply check_selection_bounds_step in H3 as (mid & H3a & H3b).
  apply check_total_vote_count_step in H4 as [H4 H4'].
  exists base, s1, s2, mid, s3, s4, n, (mkSuperForm (form s4) counted).
  split_and!; try done. unfold aggregate. destruct (n >? 0); [|by left].
  right. exists NON_FIELD_ERRORS, (QuestionForm.please_correct n).
  split; [in_list|done].
Qed.

(** ** [QuestionForm.clean]: the errors of the related-field checks *)

Lemma one_step_field_errors (keys : list string) (self self' : SuperForm)
    (key : string) :
  one_step keys self self' → key ∉ keys →
  field_errors (form self') key = field_errors (form self) key.
Proof.
  intros Hstep Hkey. apply one_step_frame in Hstep as (_ & _ & _ & _ & Hkeys).
  unfold field_errors, dict_get. by destruct (Hkeys key Hkey) as [-> _].
Qed.

Lemma one_step_cleaned_ne (keys : list string) (self self' : SuperForm)
    (key : string) :
  one_step keys self self' → key ∉ keys →
  cleaned self' key = cleaned self key.
Proof.
  intros Hstep Hkey. apply one_step_frame in Hstep as (_ & _ & _ & _ & Hkeys).
  unfold cleaned, dict_get. by destruct (Hkeys key Hkey) as [_ ->].
Qed.

Lemma one_step_fields (keys : list string) (self self' : SuperForm) :
  one_step keys self self' → fields (form self') = fields (form self).
Proof. by intros (? & _)%one_step_frame. Qed.

Lemma one_step_formsets (keys : list string) (self self' : SuperForm) :
  one_step keys self self' → formsets self' = formsets self.
Proof. by intros (_ & _ & _ & ? & _)%one_step_frame. Qed.

Lemma aggregate_field_errors (n : Z) (self : SuperForm) (key : string) :
  key ≠ NON_FIELD_ERRORS →
  field_errors (form (aggregate n self)) key = field_errors (form self) key.
Proof.
  intros Hkey. unfold aggregate. destruct (n >? 0); [|done]. cbn.
  by rewrite field_errors_record_ne.
Qed.

(** The one error [check_total_vote_count] can add. *)
Lemma check_total_vote_count_adds (self self' : SuperForm) (r : pyval) :
  QuestionForm.check_total_vote_count self = Ok (r, self') →
  self' = self
  ∨ self' = set_form
              (record_error "max_vote_count"
                 QuestionForm.total_vote_count_too_big (form self)) self.
Proof.
  unfold QuestionForm.check_total_vote_count, QuestionForm.cleaned_get. run.
  destruct (truthy (dict_get _ "has_max_vote_count" PNone)); cbn;
    [|intros [= _ <-]; by left].
  destruct (truthy (dict_get _ "max_vote_count" PNone)); cbn;
    [|intros [= _ <-]; by left].
  destruct (py_gt _ _) as [[]|]; cbn; [| |done].
  - add_cases. intros [= _ <-]. right. by eapply self_add_error_inv.
  - intros [= _ <-]. by left.
Qed.

(** C3. Whenever [clean] runs to its end on a form whose [vote_start] and
    [vote_end] are cleaned to datetimes or absent, what it has added to the
    errors of the field [vote_end] is the error with the message
    [Ensure this time is later than the vote start date.] and the code
    [vote_end_too_early] if and only if both values are present and
    [vote_end] is strictly before [vote_start]; when either is absent, or
    when the two are equal, the errors of [vote_end] are those base
    validation left. No later step of [clean] touches them. *)
Theorem clean_vote_end_error (super_clean : M SuperForm unit)
    (full_clean : string → FormSet → result FormSet)
    (self base self' : SuperForm) :
  super_clean self = Ok (tt, base) →
  QuestionForm.clean super_clean full_clean self = Ok (tt, self') →
  is_Some (fields (form base) !! "vote_end") →
  datetime_or_none (cleaned base "vote_start") →
  datetime_or_none (cleaned base "vote_end") →
  (field_errors (form self') "vote_end"
   = field_errors (form base) "vote_end"
     ++ [mkValidationError
           "Ensure this time is later than the vote start date."
           (Some "vote_end_too_early") []]
   ↔ ∃ s e, cleaned base "vote_start" = PDateTime s
            ∧ cleaned base "vote_end" = PDateTime e ∧ e < s)
  ∧ (¬ (∃ s e, cleaned base "vote_start" = PDateTime s
               ∧ cleaned base "vote_end" = PDateTime e ∧ e < s) →
     field_errors (form self') "vote_end" = field_errors (form base) "vote_end")
  ∧ (cleaned base "vote_start" = PNone ∨ cleaned base "vote_end" = PNone
     ∨ cleaned base "vote_start" = cleaned base "vote_end" →
     field_errors (form self') "vote_end" = field_errors (form base) "vote_end").
Proof.
  intros Hbase Hclean Hfield Ts Te.
  apply clean_run in Hclean
    as (base' & s1 & s2 & s3 & v & s4 & n & counted & Hb & H1 & H2 & H3 & H4
        & _ & _ & ->).
  rewrite Hbase in Hb. injection Hb as <-.
  apply check_max_vote_count_step in H2.
  apply check_selection_bounds_step in H3 as (mid & H3a & H3b).
  apply check_total_vote_count_step in H4 as [H4 _].
  assert (Hlater : field_errors (form (aggregate n (mkSuperForm (form s4) counted)))
                     "vote_end"
                   = field_errors (form s1) "vote_end").
  { rewrite aggregate_field_errors by done. cbn.
    rewrite (one_step_field_errors _ _ _ _ H4),
      (one_step_field_errors _ _ _ _ H3b),
      (one_step_field_errors _ _ _ _ H3a),
      (one_step_field_errors _ _ _ _ H2); [done|not_in_list..]. }
  rewrite Hlater.
  destruct (check_vote_end_alone base Hfield Ts Te)
    as (s1' & R1 & Hiff & Hno & Habsent).
  rewrite H1 in R1. injection R1 as <-.
  split_and!; [done|by intros ->%Hno|by intros ->%Habsent].
Qed.

Lemma clean_vote_end_error_witness :
  let self :=
    question_form [("vote_start", PDateTime 20); ("vote_end", PDateTime 10)]
      [] 2 in
  let self' :=
    with_collected
      (question_form [("vote_start", PDateTime 20)]
         [("vote_end", [QuestionForm.vote_end_too_early]);
          (NON_FIELD_ERRORS, [QuestionForm.please_correct 1])] 2) in
  (field_errors (form self') "vote_end"
   = field_errors (form self) "vote_end"
     ++ [mkValidationError
           "Ensure this time is later than the vote start date."
           (Some "vote_end_too_early") []]
   ↔ ∃ s e, cleaned self "vote_start" = PDateTime s
            ∧ cleaned self "vote_end" = PDateTime e ∧ e < s)
  ∧ (¬ (∃ s e, cleaned self "vote_start" = PDateTime s
               ∧ cleaned self "vote_end" = PDateTime e ∧ e < s) →
     field_errors (form self') "vote_end" = field_errors (form self) "vote_end")
  ∧ (cleaned self "vote_start" = PNone ∨ cleaned self "vote_end" = PNone
     ∨ cleaned self "vote_start" = cleaned self "vote_end" →
     field_errors (form self') "vote_end" = field_errors (form self) "vote_end").
Proof.
  intros self self'.
  apply (clean_vote_end_error (mret tt) collect_form_errors self self self').
  - reflexivity.
  - vm_compute. reflexivity.
  - eexists. vm_compute. reflexivity.
  - vm_compute. exact I.
  - vm_compute. exact I.
Defined.

(** C7. Whenever [clean] runs to its end on a form whose [max_vote_count]
    is cleaned to an integer or absent, let [added] be what it has added
    to the errors of the field [max_vote_count]. The error with the
    message [This field is required.] and the code
    [max_vote_count_required] is among them if and only if the cleaned
    [max_vote_count] is absent while the cleaned [has_max_vote_count] is
    true, and it is then the only one; the error with the code
    [max_vote_count_positive] is among them if and only if
    [max_vote_count] is present and negative, and it is then the only one;
    a [max_vote_count] of zero or more gets neither, and nothing or the
    error of the total-count check. The later steps of [clean] leave these
    errors in place. *)
Theorem clean_max_vote_count_errors (super_clean : M SuperForm unit)
    (full_clean : string → FormSet → result FormSet)
    (self base self' : SuperForm) :
  super_clean self = Ok (tt, base) →
  QuestionForm.clean super_clean full_clean self = Ok (tt, self') →
  is_Some (fields (form base) !! "max_vote_count") →
  int_or_none (cleaned base "max_vote_count") →
  ∃ added,
    field_errors (form self') "max_vote_count"
    = field_errors (form base) "max_vote_count" ++ added
    ∧ (mkValidationError "This field is required."
         (Some "max_vote_count_required") [] ∈ added
       ↔ cleaned base "max_vote_count" = PNone
         ∧ truthy (cleaned base "has_max_vote_count") = true)
    ∧ (mkValidationError "Ensure this value is positive."
         (Some "max_vote_count_positive") [] ∈ added
       ↔ ∃ n, cleaned base "max_vote_count" = PInt n ∧ n < 0)
    ∧ (cleaned base "max_vote_count" = PNone →
       truthy (cleaned base "has_max_vote_count") = true →
       added = [mkValidationError "This field is required."
                  (Some "max_vote_count_required") []])
    ∧ (cleaned base "max_vote_count" = PNone →
       truthy (cleaned base "has_max_vote_count") = false →
       added = [])
    ∧ (∀ n, cleaned base "max_vote_count" = PInt n → n < 0 →
            added = [mkValidationError "Ensure this value is positive."
                       (Some "max_vote_count_positive") []])
    ∧ (∀ n, cleaned base "max_vote_count" = PInt n → 0 ≤ n →
            added = []
            ∨ added = [mkValidationError
                         "Ensure total vote count is less than or equal to the max vote count."
                         (Some "total_vote_count_too_big") []]).
Proof.
  intros Hbase Hclean Hfield Tmax.
  apply clean_run in Hclean
    as (base' & s1 & s2 & s3 & v & s4 & n & counted & Hb & H1 & H2 & H3 & H4
        & _ & _ & ->).
  rewrite Hbase in Hb. injection Hb as <-.
  pose proof (check_vote_end_step _ _ _ H1) as S1.
  pose proof (check_max_vote_count_step _ _ _ H2) as S2.
  destruct (check_selection_bounds_step _ _ _ H3) as (mid & S3a & S3b).
  destruct (check_total_vote_count_step _ _ _ H4) as [S4 Hskip].
  (* before and after the two checks that write to the field *)
  assert (Hfirst : field_errors (form s1) "max_vote_count"
                   = field_errors (form base) "max_vote_count")
    by (rewrite (one_step_field_errors _ _ _ _ S1); [done|not_in_list]).
  assert (Hmax1 : cleaned s1 "max_vote_count" = cleaned base "max_vote_count")
    by (rewrite (one_step_cleaned_ne _ _ _ _ S1); [done|not_in_list]).
  assert (Hhas1 : cleaned s1 "has_max_vote_count"
                  = cleaned base "has_max_vote_count")
    by (rewrite (one_step_cleaned_ne _ _ _ _ S1); [done|not_in_list]).
  assert (Hmid : field_errors (form s3) "max_vote_count"
                 = field_errors (form s2) "max_vote_count").
  { rewrite (one_step_field_errors _ _ _ _ S3b),
      (one_step_field_errors _ _ _ _ S3a); [done|not_in_list..]. }
  assert (Hmax3 : cleaned s3 "max_vote_count" = cleaned s2 "max_vote_count").
  { rewrite (one_step_cleaned_ne _ _ _ _ S3b),
      (one_step_cleaned_ne _ _ _ _ S3a); [done|not_in_list..]. }
  assert (Hlast : field_errors
                    (form (aggregate n (mkSuperForm (form s4) counted)))
                    "max_vote_count"
                  = field_errors (form s4) "max_vote_count")
    by (by rewrite aggregate_field_errors).
  rewrite Hlast. clear Hlast.
  destruct (check_max_vote_count_alone s1) as (s2' & R2 & Hreq & Hpos & Hkeep & Hnone).
  { by rewrite (one_step_fields _ _ _ S1). }
  { by rewrite Hmax1. }
  rewrite H2 in R2. injection R2 as <-.
  rewrite Hmax1, Hhas1, Hfirst in Hreq. rewrite Hmax1, Hfirst in Hpos.
  rewrite Hmax1 in Hkeep. rewrite Hmax1, Hhas1 in Hnone.
  (* an error from [check_max_vote_count] silences [check_total_vote_count] *)
  assert (Hquiet : ∀ error,
    field_errors (form s2) "max_vote_count"
    = field_errors (form base) "max_vote_count" ++ [error] →
    field_errors (form s4) "max_vote_count"
    = field_errors (form base) "max_vote_count" ++ [error]).
  { intros error Hadded.
    destruct (one_step_errors _ _ _ "max_vote_count" S2) as (l & Hl & _ & Hgone).
    rewrite Hfirst, Hadded in Hl. apply app_inv_head in Hl. subst l.
    destruct Hgone as [_ Hgone]; [done|].
    rewrite Hskip; [by rewrite Hmid|]. by rewrite Hmax3, Hgone. }
  assert (Hkept : s2 = s1 →
    field_errors (form s4) "max_vote_count"
    = field_errors (form base) "max_vote_count"
    ∨ field_errors (form s4) "max_vote_count"
      = field_errors (form base) "max_vote_count"
        ++ [QuestionForm.total_vote_count_too_big]).
  { intros Hsame. rewrite Hsame in Hmid.
    destruct (check_total_vote_count_adds _ _ _ H4) as [-> | ->].
    - left. by rewrite Hmid.
    - right. cbn. by rewrite field_errors_record, Hmid, Hfirst. }
  destruct (cleaned base "max_vote_count") as [| |m| | |] eqn:Em; try done.
  - destruct (truthy (cleaned base "has_max_vote_count")) eqn:Eh.
    + exists [QuestionForm.max_vote_count_required].
      split; [apply Hquiet; by apply Hreq|].
      split_and!; try done.
      * split; [done|]. intros _. left.
      * split; [|by intros (? & ? & _)].
        intros Hin. apply list_elem_of_singleton in Hin. done.
    + exists []. rewrite app_nil_r.
      assert (Hs2 : s2 = s1) by (by apply Hnone).
      split.
      { rewrite Hskip; [by rewrite Hmid, Hs2|].
        by rewrite Hmax3, Hs2, Hmax1. }
      split_and!; try done.
      * split; [by intros ?%elem_of_nil|by intros [_ ?]].
      * split; [by intros ?%elem_of_nil|by intros (? & ? & _)].
  - destruct (decide (m < 0)) as [Hneg|Hnn].
    + exists [QuestionForm.max_vote_count_positive].
      split; [apply Hquiet; apply Hpos; by exists m|].
      split_and!; try done.
      * split; [|by intros [? _]].
        intros Hin. apply list_elem_of_singleton in Hin. done.
      * split; [|intros _; left]. intros _. by exists m.
      * intros m' [= <-] ?. lia.
    + assert (Hs2 : s2 = s1) by (apply (Hkeep m); [done|lia]).
      destruct (Hkept Hs2) as [Hfe|Hfe].
      * exists []. rewrite app_nil_r. split; [done|].
        split_and!; try done.
        -- split; [by intros ?%elem_of_nil|by intros [? _]].
        -- split; [by intros ?%elem_of_nil|intros (m' & [= <-] & ?); lia].
        -- intros m' [= <-] ?. lia.
        -- intros m' _ _. by left.
      * exists [QuestionForm.total_vote_count_too_big]. split; [done|].
        split_and!; try done.
        -- split; [|by intros [? _]].
           intros Hin. apply list_elem_of_singleton in Hin. done.
        -- split; [|intros (m' & [= <-] & ?); lia].
           intros Hin. apply list_elem_of_singleton in Hin. done.
        -- intros m' [= <-] ?. lia.
        -- intros m' _ _. by right.
Qed.

Lemma clean_max_vote_count_errors_witness :
  let self :=
    question_form [("has_max_vote_count", PBool true); ("total_vote_count", PInt 0)]
      [] 2 in
  let self' :=
    with_collected
      (question_form [("has_max_vote_count", PBool true); ("total_vote_count", PInt 0)]
         [("max_vote_count", [QuestionForm.max_vote_count_required]);
          (NON_FIELD_ERRORS, [QuestionForm.please_correct 1])] 2) in
  ∃ added,
    field_errors (form self') "max_vote_count"
    = field_errors (form self) "max_vote_count" ++ added
    ∧ (mkValidationError "This field is required."
         (Some "max_vote_count_required") [] ∈ added
       ↔ cleaned self "max_vote_count" = PNone
         ∧ truthy (cleaned self "has_max_vote_count") = true)
    ∧ (mkValidationError "Ensure this value is positive."
         (Some "max_vote_count_positive") [] ∈ added
       ↔ ∃ n, cleaned self "max_vote_count" = PInt n ∧ n < 0)
    ∧ (cleaned self "max_vote_count" = PNone →
       truthy (cleaned self "has_max_vote_count") = true →
       added = [mkValidationError "This field is required."
                  (Some "max_vote_count_required") []])
    ∧ (cleaned self "max_vote_count" = PNone →
       truthy (cleaned self "has_max_vote_count") = false →
       added = [])
    ∧ (∀ n, cleaned self "max_vote_count" = PInt n → n < 0 →
            added = [mkValidationError "Ensure this value is positive."
                       (Some "max_vote_count_positive") []])
    ∧ (∀ n, cleaned self "max_vote_count" = PInt n → 0 ≤ n →
            added = []
            ∨ added = [mkValidationError
                         "Ensure total vote count is less than or equal to the max vote count."
                         (Some "total_vote_count_too_big") []]).
Proof.
  intros self self'.
  apply (clean_max_vote_count_errors (mret tt) collect_form_errors
           self self self').
  - reflexivity.
  - vm_compute. reflexivity.
  - eexists. vm_compute. reflexivity.
  - vm_compute. exact I.
Defined.

(** C5, as the code has it. Whenever [clean] runs to its end on a form
    whose selection bounds are cleaned to integers or absent, with [n]
    choice forms in the [choices] formset: it has added the error with the
    code [max_selection_too_small] to the field [max_selection] if and only
    if both bounds are present and [min_selection > max_selection], and it
    has added an error to the field [min_selection] if and only if
    [min_selection] is present and exceeds [n]. Only [min_selection] is
    compared with [n]: when [min_selection] is absent, or is at most [n]
    and at most a present [max_selection], the errors of both fields are
    those base validation left, whatever [max_selection] is. *)
Theorem clean_selection_bounds_errors (super_clean : M SuperForm unit)
    (full_clean : string → FormSet → result FormSet)
    (self base self' : SuperForm) (choices : FormSet) :
  super_clean self = Ok (tt, base) →
  QuestionForm.clean super_clean full_clean self = Ok (tt, self') →
  is_Some (fields (form base) !! "min_selection") →
  is_Some (fields (form base) !! "max_selection") →
  int_or_none (cleaned base "min_selection") →
  int_or_none (cleaned base "max_selection") →
  odict_item (formsets base) "choices" = Ok choices →
  (field_errors (form self') "max_selection"
   = field_errors (form base) "max_selection"
     ++ [mkValidationError
           "Ensure this value is greater than or equal to the min selection."
           (Some "max_selection_too_small") []]
   ↔ ∃ lo hi, cleaned base "min_selection" = PInt lo
              ∧ cleaned base "max_selection" = PInt hi ∧ lo > hi)
  ∧ (field_errors (form self') "min_selection"
     = field_errors (form base) "min_selection"
       ++ [mkValidationError
             "Ensure this value is less than or equal to the number of choices (%(len)s)."
             (Some "max_selection_too_small")
             [("len", PInt (formset_len choices))]]
     ↔ ∃ lo, cleaned base "min_selection" = PInt lo
             ∧ lo > formset_len choices)
  ∧ (cleaned base "min_selection" = PNone
     ∨ (∃ lo, cleaned base "min_selection" = PInt lo
              ∧ lo ≤ formset_len choices
              ∧ (cleaned base "max_selection" = PNone
                 ∨ ∃ hi, cleaned base "max_selection" = PInt hi ∧ lo ≤ hi)) →
     field_errors (form self') "max_selection"
     = field_errors (form base) "max_selection"
     ∧ field_errors (form self') "min_selection"
       = field_errors (form base) "min_selection").
Proof.
  intros Hbase Hclean Hmin Hmax Tmin Tmax Hchoices.
  apply clean_run in Hclean
    as (base' & s1 & s2 & s3 & v & s4 & n & counted & Hb & H1 & H2 & H3 & H4
        & _ & _ & ->).
  rewrite Hbase in Hb. injection Hb as <-.
  pose proof (check_vote_end_step _ _ _ H1) as S1.
  pose proof (check_max_vote_count_step _ _ _ H2) as S2.
  destruct (check_total_vote_count_step _ _ _ H4) as [S4 _].
  assert (Hbefore : ∀ key, key ≠ "vote_end" → key ≠ "max_vote_count" →
    field_errors (form s2) key = field_errors (form base) key
    ∧ cleaned s2 key = cleaned base key).
  { intros key ? ?.
    rewrite (one_step_field_errors _ _ _ _ S2), (one_step_field_errors _ _ _ _ S1),
      (one_step_cleaned_ne _ _ _ _ S2), (one_step_cleaned_ne _ _ _ _ S1);
      [done|not_in_list..]. }
  assert (Hafter : ∀ key, key ≠ "max_vote_count" → key ≠ NON_FIELD_ERRORS →
    field_errors (form (aggregate n (mkSuperForm (form s4) counted))) key
    = field_errors (form s3) key).
  { intros key ? ?. rewrite aggregate_field_errors by done. cbn.
    rewrite (one_step_field_errors _ _ _ _ S4); [done|not_in_list]. }
  rewrite !Hafter by done.
  destruct (Hbefore "min_selection") as [Emin Cmin]; [done..|].
  destruct (Hbefore "max_selection") as [Emax Cmax]; [done..|].
  destruct (check_selection_bounds_alone s2 choices)
    as (s3' & R3 & Hhi & Hlo & Hsame).
  { by rewrite (one_step_fields _ _ _ S2), (one_step_fields _ _ _ S1). }
  { by rewrite (one_step_fields _ _ _ S2), (one_step_fields _ _ _ S1). }
  { by rewrite Cmin. }
  { by rewrite Cmax. }
  { by rewrite (one_step_formsets _ _ _ S2), (one_step_formsets _ _ _ S1). }
  rewrite H3 in R3. injection R3 as <-.
  rewrite Cmin, Cmax, Emax in Hhi. rewrite Cmin, Emin in Hlo.
  rewrite Cmin, Cmax in Hsame.
  split_and!; [done..|]. intros Hcond. rewrite (Hsame Hcond). done.
Qed.

Lemma clean_selection_bounds_errors_witness :
  let self :=
    question_form
      [("min_selection", PInt 3); ("max_selection", PInt 1);
       ("total_vote_count", PInt 0)] [] 2 in
  let choices := mkFormSet (replicate 2 empty_form) true None in
  let self' :=
    with_collected
      (question_form [("total_vote_count", PInt 0)]
         [("max_selection", [QuestionForm.max_selection_too_small]);
          ("min_selection", [QuestionForm.min_selection_too_big 2]);
          (NON_FIELD_ERRORS, [QuestionForm.please_correct 2])] 2) in
  (field_errors (form self') "max_selection"
   = field_errors (form self) "max_selection"
     ++ [mkValidationError
           "Ensure this value is greater than or equal to the min selection."
           (Some "max_selection_too_small") []]
   ↔ ∃ lo hi, cleaned self "min_selection" = PInt lo
              ∧ cleaned self "max_selection" = PInt hi ∧ lo > hi)
  ∧ (field_errors (form self') "min_selection"
     = field_errors (form self) "min_selection"
       ++ [mkValidationError
             "Ensure this value is less than or equal to the number of choices (%(len)s)."
             (Some "max_selection_too_small")
             [("len", PInt (formset_len choices))]]
     ↔ ∃ lo, cleaned self "min_selection" = PInt lo
             ∧ lo > formset_len choices)
  ∧ (cleaned self "min_selection" = PNone
     ∨ (∃ lo, cleaned self "min_selection" = PInt lo
              ∧ lo ≤ formset_len choices
              ∧ (cleaned self "max_selection" = PNone
                 ∨ ∃ hi, cleaned self "max_selection" = PInt hi ∧ lo ≤ hi)) →
     field_errors (form self') "max_selection"
     = field_errors (form self) "max_selection"
     ∧ field_errors (form self') "min_selection"
       = field_errors (form self) "min_selection").
Proof.
  intros self choices self'.
  apply (clean_selection_bounds_errors (mret tt) collect_form_errors
           self self self' choices).
  - reflexivity.
  - vm_compute. reflexivity.
  - eexists. vm_compute. reflexivity.
  - eexists. vm_compute. reflexivity.
  - vm_compute. exact I.
  - vm_compute. exact I.
  - vm_compute. reflexivity.
Defined.

(** C5, as stated, fails: with three choice forms, [min_selection = 1]
    and [max_selection = 10], the upper selection bound exceeds the number
    of choice forms, and [clean] runs to its end without adding any error:
    the form's error dict is empty afterwards. *)
Lemma check_selection_bounds_max_above_choices :
  let self :=
    question_form
      [("min_selection", PInt 1); ("max_selection", PInt 10);
       ("total_vote_count", PInt 0)] [] 3 in
  (∃ choices, odict_item (formsets self) "choices" = Ok choices
              ∧ formset_len choices = 3)
  ∧ cleaned self "max_selection" = PInt 10
  ∧ QuestionForm.check_selection_bounds self = Ok (tt, self)
  ∧ QuestionForm.clean (mret tt) collect_form_errors self
    = Ok (tt, with_collected self)
  ∧ errors (form (with_collected self)) = ∅.
Proof.
  intros self. split_and!.
  - eexists. split; vm_compute; reflexivity.
  - vm_compute. reflexivity.
  - vm_compute. reflexivity.
  - vm_compute. reflexivity.
  - reflexivity.
Qed.

(** ** [QuestionForm.clean]: the aggregate error *)

Lemma tree_error_count_pos (self : SuperForm) :
  0 ≤ formsets_error_count self
  ∧ (0 < Z.of_nat (size (errors (form self))) + formsets_error_count self
     ↔ tree_has_errors self).
Proof.
  unfold formsets_error_count, tree_has_errors, form_has_errors.
  destruct (sum_pos_iff (λ item : string * FormSet, error_total item.2)
              (formsets self) (λ item, error_total_nonneg item.2))
    as [Hnn Hiff].
  split; [done|]. split.
  - intros Hpos. destruct (decide (errors (form self) = ∅)) as [Hempty|Hne].
    + right. rewrite Hempty, map_size_empty in Hpos.
      destruct (proj1 Hiff) as ([name fs] & Hin & Hfs); [lia|].
      exists name, fs. split; [done|]. by apply error_total_pos.
    + by left.
  - intros [Hne|(name & fs & Hin & Hfs)].
    + assert (size (errors (form self)) ≠ 0%nat) by (by rewrite map_size_empty_iff).
      lia.
    + assert (0 < foldr Z.add 0
                ((λ item : string * FormSet, error_total item.2)
                   <$> formsets self)).
      { apply Hiff. exists (name, fs). split; [done|].
        by apply error_total_pos. }
      lia.
Qed.

Lemma please_correct_text (n : Z) :
  render (QuestionForm.please_correct n)
  = "Please correct the error(s) below (" +:+ pretty n +:+ " total).".
Proof. reflexivity. Qed.

Example please_correct_three :
  render (QuestionForm.please_correct 3)
  = "Please correct the error(s) below (3 total).".
Proof. vm_compute. reflexivity. Qed.

(** One field error on the parent and two choice forms with errors in one
    field each: validating the choices inside [clean] finds the two, and
    the aggregate error counts three. *)
Example clean_counts_formset_errors :
  let missing := mkValidationError "This field is required." (Some "required") [] in
  let choice := mkForm true ∅ ∅ ∅ {[ "choice_text" := [missing] ]} in
  let self :=
    mkSuperForm
      (mkForm true ∅ question_fields
         (list_to_map [("total_vote_count", PInt 0)])
         (list_to_map [("question_text", [missing])]))
      [("attachments", mkFormSet [] true None);
       ("q_followers", mkFormSet [] true None);
       ("choices", mkFormSet [choice; choice] true None)] in
  ∃ self',
    QuestionForm.clean (mret tt) collect_form_errors self = Ok (tt, self')
    ∧ field_errors (form self') NON_FIELD_ERRORS = [QuestionForm.please_correct 3]
    ∧ render (QuestionForm.please_correct 3)
      = "Please correct the error(s) below (3 total).".
Proof. eexists. split_and!; vm_compute; reflexivity. Qed.

Example clean_valid_form :
  let self := question_form [("total_vote_count", PInt 0)] [] 2 in
  QuestionForm.clean (mret tt) collect_form_errors self
  = Ok (tt, with_collected self).
Proof. vm_compute. reflexivity. Qed.

(** The validation of a nested formset that [total_error_count] runs can
    raise, and [clean] passes the exception on: here the followers
    formset's own [clean] meets a repeated follower. *)
Example clean_followers_raise :
  let followers :=
    mkFormSet [follower_form (PModel 7) false; follower_form (PModel 7) false]
      true None in
  let full_clean (name : string) (formset : FormSet) :=
    if String.eqb name "q_followers"
    then QuestionFollowersFormSet.clean (collect_form_errors name)
           QuestionFollowersFormSet.formset_add_error formset
    else collect_form_errors name formset in
  QuestionForm.clean (mret tt) full_clean
    (mkSuperForm
       (mkForm true ∅ question_fields
          (list_to_map [("total_vote_count", PInt 0)]) ∅)
       [("attachments", mkFormSet [] true None);
        ("q_followers", followers);
        ("choices", mkFormSet [empty_form; empty_form] true None)])
  = Raise AttributeError.
Proof. vm_compute. reflexivity. Qed.

(** *** [clean] runs to its end on well-typed cleaned data *)

Lemma after_checks_refl (self : SuperForm) : after_checks self self.
Proof. repeat split; auto. Qed.

Lemma after_checks_trans (a b c : SuperForm) :
  after_checks a b → after_checks b c → after_checks a c.
Proof.
  intros (Hf1 & Hs1 & Hc1 & Ht1) (Hf2 & Hs2 & Hc2 & Ht2).
  repeat split; [congruence..| |congruence].
  intros key. destruct (Hc2 key) as [-> | ->]; [apply Hc1|by right].
Qed.

Lemma after_checks_record (field : string) (error : ValidationError)
    (self : SuperForm) :
  field ≠ "total_vote_count" →
  after_checks self (set_form (record_error field error (form self)) self).
Proof.
  intros Hne. repeat split.
  - intros key. unfold cleaned, dict_get. cbn.
    destruct (decide (field = key)) as [->|Hkey].
    + right. by rewrite lookup_delete_eq.
    + left. by rewrite lookup_delete_ne.
  - unfold cleaned, dict_get. cbn. by rewrite lookup_delete_ne.
Qed.

Lemma self_add_error_runs (field : string) (error : ValidationError)
    (self : SuperForm) :
  is_Some (fields (form self) !! field) → field ≠ "total_vote_count" →
  ∃ self', QuestionForm.self_add_error field error self = Ok (tt, self')
           ∧ after_checks self self'.
Proof.
  intros Hfield Hne. unfold QuestionForm.self_add_error. run.
  rewrite add_error_known by done. cbn. eexists. split; [reflexivity|].
  by apply after_checks_record.
Qed.

Lemma check_vote_end_runs (self : SuperForm) :
  is_Some (fields (form self) !! "vote_end") →
  datetime_or_none (cleaned self "vote_start") →
  datetime_or_none (cleaned self "vote_end") →
  ∃ self', QuestionForm.check_vote_end self = Ok (tt, self')
           ∧ after_checks self self'.
Proof.
  intros Hfield Hs He.
  unfold QuestionForm.check_vote_end, QuestionForm.cleaned_get.
  run. fold (cleaned self "vote_end") (cleaned self "vote_start").
  destruct (cleaned self "vote_start") as [| | | |s|]; try done;
    destruct (cleaned self "vote_end") as [| | | |e|]; try done; cbn;
    try (eexists; split; [reflexivity|apply after_checks_refl]).
  destruct (s >? e); [by apply self_add_error_runs|].
  eexists; split; [reflexivity|apply after_checks_refl].
Qed.

Lemma check_max_vote_count_runs (self : SuperForm) :
  is_Some (fields (form self) !! "max_vote_count") →
  int_or_none (cleaned self "max_vote_count") →
  ∃ self', QuestionForm.check_max_vote_count self = Ok (tt, self')
           ∧ after_checks self self'.
Proof.
  intros Hfield Hint.
  unfold QuestionForm.check_max_vote_count, QuestionForm.cleaned_get.
  run. fold (cleaned self "max_vote_count") (cleaned self "has_max_vote_count").
  destruct (cleaned self "max_vote_count") as [| |n| | |]; try done; cbn.
  - destruct (truthy (cleaned self "has_max_vote_count")); cbn.
    + destruct (self_add_error_runs "max_vote_count"
                  QuestionForm.max_vote_count_required self)
        as (self' & -> & Hafter); [done..|]. by exists self'.
    + eexists; split; [reflexivity|apply after_checks_refl].
  - unfold py_lt, py_gt. cbn. destruct (0 >? n).
    + by apply self_add_error_runs.
    + eexists; split; [reflexivity|apply after_checks_refl].
Qed.

Lemma check_selection_bounds_runs (self : SuperForm) (choices : FormSet) :
  is_Some (fields (form self) !! "min_selection") →
  is_Some (fields (form self) !! "max_selection") →
  int_or_none (cleaned self "min_selection") →
  int_or_none (cleaned self "max_selection") →
  odict_item (formsets self) "choices" = Ok choices →
  ∃ self', QuestionForm.check_selection_bounds self = Ok (tt, self')
           ∧ after_checks self self'.
Proof.
  intros Hmin Hmax Tmin Tmax Hchoices.
  unfold QuestionForm.check_selection_bounds, QuestionForm.cleaned_get.
  run. rewrite Hchoices. cbn.
  fold (cleaned self "min_selection") (cleaned self "max_selection").
  destruct (cleaned self "min_selection") as [| |lo| | |]; try done; cbn.
  { eexists; split; [reflexivity|apply after_checks_refl]. }
  assert (Hsecond : ∀ mid, after_checks self mid →
    ∃ self',
      (if lo >? formset_len choices
       then QuestionForm.self_add_error "min_selection"
              (QuestionForm.min_selection_too_big (formset_len choices))
       else λ s, Ok (tt, s)) mid = Ok (tt, self')
      ∧ after_checks self self').
  { intros mid Hmid. destruct (lo >? formset_len choices).
    - destruct (self_add_error_runs "min_selection"
                  (QuestionForm.min_selection_too_big (formset_len choices)) mid)
        as (self' & Hrun & Hafter); [|done|].
      + destruct Hmid as (-> & _). done.
      + exists self'. split; [done|]. by eapply after_checks_trans.
    - by exists mid. }
  destruct (cleaned self "max_selection") as [| |hi| | |]; try done; cbn.
  - run. apply Hsecond, after_checks_refl.
  - destruct (lo >? hi); run.
    + destruct (self_add_error_runs "max_selection"
                  QuestionForm.max_selection_too_small self)
        as (mid & Hrun & Hmid); [done..|].
      rewrite Hrun. cbn. by apply Hsecond.
    + apply Hsecond, after_checks_refl.
Qed.

Lemma check_total_vote_count_runs (self : SuperForm) (total : Z) :
  is_Some (fields (form self) !! "max_vote_count") →
  int_or_none (cleaned self "max_vote_count") →
  cleaned self "total_vote_count" = PInt total →
  ∃ r self', QuestionForm.check_total_vote_count self = Ok (r, self')
             ∧ after_checks self self'.
Proof.
  intros Hfield Hint Htotal.
  unfold QuestionForm.check_total_vote_count, QuestionForm.cleaned_get.
  unfold cleaned in *. run. rewrite Htotal.
  destruct (truthy (dict_get _ "has_max_vote_count" PNone)); cbn;
    [|eexists _, _; split; [reflexivity|apply after_checks_refl]].
  destruct (dict_get _ "max_vote_count" PNone) as [| |n| | |]; try done; cbn;
    [eexists _, _; split; [reflexivity|apply after_checks_refl]|].
  destruct (n =? 0); cbn;
    [eexists _, _; split; [reflexivity|apply after_checks_refl]|].
  destruct (total >? n); cbn;
    [|eexists _, _; split; [reflexivity|apply after_checks_refl]].
  destruct (self_add_error_runs "max_vote_count"
              QuestionForm.total_vote_count_too_big self)
    as (self' & Hrun & Hafter); [done..|].
  rewrite Hrun. cbn. by eexists _, _.
Qed.

Lemma typed_after (self self' : SuperForm) (key : string) (T : pyval → Prop) :
  T PNone → after_checks self self' → T (cleaned self key) →
  T (cleaned self' key).
Proof. intros HN (_ & _ & Hc & _) HT. by destruct (Hc key) as [-> | ->]. Qed.

Lemma count_formsets_returns (full_clean : string → FormSet → result FormSet)
    (items : list (string * FormSet)) (k : Z) :
  Forall (λ item, ∃ n fs', total_error_count (full_clean item.1) item.2
                           = Ok (n, fs')) items →
  ∃ n counted, QuestionForm.count_formsets full_clean items k = Ok (n, counted).
Proof.
  intros Hall. revert k.
  induction Hall as [|[name fs] items (m & fs' & Hfs) _ IH]; intros k.
  - by eexists _, _.
  - cbn in *. rewrite Hfs. run. destruct (IH (k + m)) as (n & counted & ->).
    cbn. by eexists _, _.
Qed.

(** When base validation returns, the form has the four checked fields
    and a [choices] formset, the cleaned values have their fields' types,
    the total is present and the validation of every nested formset
    returns, [clean] runs to its end. *)
Lemma clean_returns (super_clean : M SuperForm unit)
    (full_clean : string → FormSet → result FormSet) (self base : SuperForm)
    (choices : FormSet) (total : Z) :
  super_clean self = Ok (tt, base) →
  is_Some (fields (form base) !! "vote_end") →
  is_Some (fields (form base) !! "max_vote_count") →
  is_Some (fields (form base) !! "min_selection") →
  is_Some (fields (form base) !! "max_selection") →
  odict_item (formsets base) "choices" = Ok choices →
  datetime_or_none (cleaned base "vote_start") →
  datetime_or_none (cleaned base "vote_end") →
  int_or_none (cleaned base "max_vote_count") →
  int_or_none (cleaned base "min_selection") →
  int_or_none (cleaned base "max_selection") →
  cleaned base "total_vote_count" = PInt total →
  Forall (λ item, ∃ n fs', total_error_count (full_clean item.1) item.2
                           = Ok (n, fs')) (formsets base) →
  ∃ self', QuestionForm.clean super_clean full_clean self = Ok (tt, self').
Proof.
  intros Hbase Hve Hmvc Hmin Hmax Hchoices Tvs Tve Tmvc Tmin Tmax Htotal Hfs.
  destruct (check_vote_end_runs base) as (s1 & R1 & A1); [done..|].
  destruct (check_max_vote_count_runs s1) as (s2 & R2 & A2).
  { destruct A1 as (-> & _). done. }
  { by apply (typed_after base). }
  pose proof (after_checks_trans _ _ _ A1 A2) as A12.
  destruct (check_selection_bounds_runs s2 choices) as (s3 & R3 & A3).
  { destruct A12 as (-> & _). done. }
  { destruct A12 as (-> & _). done. }
  { by apply (typed_after base). }
  { by apply (typed_after base). }
  { destruct A12 as (_ & -> & _). done. }
  pose proof (after_checks_trans _ _ _ A12 A3) as A123.
  destruct (check_total_vote_count_runs s3 total) as (r & s4 & R4 & A4).
  { destruct A123 as (-> & _). done. }
  { by apply (typed_after base). }
  { destruct A123 as (_ & _ & _ & ->). done. }
  pose proof (after_checks_trans _ _ _ A123 A4) as (_ & Hsets & _).
  destruct (count_formsets_returns full_clean (formsets s4)
              (Z.of_nat (size (errors (form s4)))))
    as (n & counted & Hcount); [by rewrite Hsets|].
  unfold QuestionForm.clean, QuestionForm.checks, QuestionForm.error_count. run.
  rewrite Hbase. cbn. rewrite R1. cbn. rewrite R2. cbn. rewrite R3. cbn.
  rewrite R4. cbn. rewrite Hcount. cbn.
  destruct (n >? 0); [|by eexists].
  unfold QuestionForm.self_add_error. run. rewrite add_error_non_field. cbn.
  by eexists.
Qed.

(** C1. Whenever [clean] runs to its end on a question form, let
    [checked] be the form after the related-field checks, [counted] that
    form once the error count has been taken, which validates the nested
    formsets that were not yet, and [n] the count: the number of entries of
    the parent form's error dict plus the total error count of every nested
    formset. Then [n] is positive exactly when the tree has an error, and
    an error with the message [Please correct the error(s) below (%(len)s
    total).] is among the form's non-field errors afterwards exactly when
    the tree has an error. When it is added it carries [len = n], the count
    taken before it was added, so that its text reads [Please correct the
    error(s) below (n total).], and nothing else changes; with no error
    anywhere, [clean] adds nothing. *)
Theorem clean_aggregate_error (super_clean : M SuperForm unit)
    (full_clean : string → FormSet → result FormSet)
    (self self' : SuperForm) :
  QuestionForm.clean super_clean full_clean self = Ok (tt, self') →
  ∃ checked counted n,
    QuestionForm.checks super_clean self = Ok (tt, checked)
    ∧ QuestionForm.error_count full_clean checked = Ok (n, counted)
    ∧ form counted = form checked
    ∧ (∀ name fs, (name, fs) ∈ formsets counted →
         total_error_count (full_clean name) fs = Ok (error_total fs, fs))
    ∧ n = Z.of_nat (size (errors (form counted))) + formsets_error_count counted
    ∧ (0 < n ↔ tree_has_errors counted)
    ∧ ((∃ error,
          error ∈ field_errors (form self') NON_FIELD_ERRORS
          ∧ message error = "Please correct the error(s) below (%(len)s total).")
       ↔ tree_has_errors counted)
    ∧ (0 < n →
       let error :=
         mkValidationError "Please correct the error(s) below (%(len)s total)."
           None [("len", PInt n)] in
       self' = set_form (record_error NON_FIELD_ERRORS error (form counted))
                 counted
       ∧ field_errors (form self') NON_FIELD_ERRORS
         = field_errors (form counted) NON_FIELD_ERRORS ++ [error]
       ∧ render error
         = "Please correct the error(s) below (" +:+ pretty n +:+ " total).")
    ∧ (n = 0 → self' = counted ∧ errors (form self') = ∅).
Proof.
  intros Hclean.
  apply clean_run in Hclean
    as (base & s1 & s2 & s3 & v & checked & n & items & _ & _ & _ & _ & _
        & Hchecks & Hcount & ->).
  set (counted := mkSuperForm (form checked) items).
  exists checked, counted, n.
  destruct (count_formsets_inv _ _ _ _ _ Hcount) as [Hsum Hitems].
  destruct (tree_error_count_pos counted) as [Hnn Hpos].
  assert (Hn : n = Z.of_nat (size (errors (form counted)))
                   + formsets_error_count counted) by exact Hsum.
  clear Hsum. split_and!; try done.
  - unfold QuestionForm.error_count. by rewrite Hcount.
  - intros name fs Hin. apply total_error_count_validated.
    apply list_elem_of_lookup in Hin as [i Hi].
    destruct (Forall2_lookup_r _ _ _ _ _ Hitems Hi) as (old & _ & _ & Hv & _).
    done.
  - by rewrite Hn.
  - unfold aggregate. destruct (n >? 0) eqn:Hgt.
    + apply Z.gtb_lt in Hgt. cbn. rewrite field_errors_record. split.
      * intros _. apply Hpos. lia.
      * intros _. eexists. split; [apply elem_of_app; right; left|done].
    + assert (n = 0)
        by (rewrite Z.gtb_ltb in Hgt; apply Z.ltb_ge in Hgt; lia).
      assert (Hempty : errors (form counted) = ∅)
        by (apply map_size_empty_iff; lia).
      split.
      * intros (error & Hin & _). unfold field_errors, dict_get in Hin.
        rewrite Hempty, lookup_empty in Hin. by apply elem_of_nil in Hin.
      * intros Htree. apply Hpos in Htree. lia.
  - intros Hgt. apply Z.gtb_lt in Hgt. unfold aggregate. rewrite Hgt. cbn.
    by rewrite field_errors_record.
  - intros ->. unfold aggregate. cbn. split; [done|].
    apply map_size_empty_iff. subst counted.
    unfold formsets_error_count in *. cbn in *. lia.
Qed.

Lemma clean_aggregate_error_witness :
  let missing := mkValidationError "This field is required." (Some "required") [] in
  let choice := mkForm true ∅ ∅ ∅ {[ "choice_text" := [missing] ]} in
  let nested :=
    [("attachments", mkFormSet [] true None);
     ("q_followers", mkFormSet [] true None);
     ("choices", mkFormSet [choice; empty_form] true None)] in
  let self :=
    mkSuperForm
      (mkForm true ∅ question_fields
         (list_to_map [("vote_start", PDateTime 20); ("vote_end", PDateTime 10);
                       ("total_vote_count", PInt 0)]) ∅)
      nested in
  let self' :=
    with_collected
      (mkSuperForm
         (mkForm true ∅ question_fields
            (list_to_map [("vote_start", PDateTime 20);
                          ("total_vote_count", PInt 0)])
            (list_to_map
               [("vote_end", [QuestionForm.vote_end_too_early]);
                (NON_FIELD_ERRORS, [QuestionForm.please_correct 2])]))
         nested) in
  ∃ checked counted n,
    QuestionForm.checks (mret tt) self = Ok (tt, checked)
    ∧ QuestionForm.error_count collect_form_errors checked = Ok (n, counted)
    ∧ form counted = form checked
    ∧ (∀ name fs, (name, fs) ∈ formsets counted →
         total_error_count (collect_form_errors name) fs
         = Ok (error_total fs, fs))
    ∧ n = Z.of_nat (size (errors (form counted))) + formsets_error_count counted
    ∧ (0 < n ↔ tree_has_errors counted)
    ∧ ((∃ error,
          error ∈ field_errors (form self') NON_FIELD_ERRORS
          ∧ message error = "Please correct the error(s) below (%(len)s total).")
       ↔ tree_has_errors counted)
    ∧ (0 < n →
       let error :=
         mkValidationError "Please correct the error(s) below (%(len)s total)."
           None [("len", PInt n)] in
       self' = set_form (record_error NON_FIELD_ERRORS error (form counted))
                 counted
       ∧ field_errors (form self') NON_FIELD_ERRORS
         = field_errors (form counted) NON_FIELD_ERRORS ++ [error]
       ∧ render error
         = "Please correct the error(s) below (" +:+ pretty n +:+ " total).")
    ∧ (n = 0 → self' = counted ∧ errors (form self') = ∅).
Proof.
  intros missing choice nested self self'.
  apply (clean_aggregate_error (mret tt) collect_form_errors self self').
  vm_compute. reflexivity.
Defined.

(** ** [FormSetForm.full_clean] *)

(** C4. After [full_clean], no error remains under the parent instance
    field; the errors of every other field are those base validation
    produced, and the rest of the form is as base validation left it. What
    is dropped is exactly the entry of the parent instance field. *)
Theorem full_clean_drops_parent_key_errors (parent_instance_field : string)
    (super_full_clean : Form → Form) (self : Form) :
  field_errors
    (FormSetForm.full_clean parent_instance_field super_full_clean self)
    parent_instance_field = []
  ∧ (∀ name, name ≠ parent_instance_field →
       errors (FormSetForm.full_clean parent_instance_field super_full_clean self)
         !! name
       = errors (super_full_clean self) !! name)
  ∧ (errors (FormSetForm.full_clean parent_instance_field super_full_clean self)
       = delete parent_instance_field (errors (super_full_clean self))
     ∨ FormSetForm.full_clean parent_instance_field super_full_clean self
       = super_full_clean self)
  ∧ cleaned_data
      (FormSetForm.full_clean parent_instance_field super_full_clean self)
    = cleaned_data (super_full_clean self)
  ∧ fields (FormSetForm.full_clean parent_instance_field super_full_clean self)
    = fields (super_full_clean self).
Proof.
  unfold FormSetForm.full_clean, FormSetForm.has_field_errors, field_errors,
    dict_get.
  destruct (errors (super_full_clean self) !! parent_instance_field)
    as [[|e l]|] eqn:Hlook; cbn.
  - rewrite Hlook. cbn. repeat split; auto.
  - rewrite lookup_delete_eq. cbn. repeat split; auto.
    intros name Hne. by rewrite lookup_delete_ne.
  - rewrite Hlook. cbn. repeat split; auto.
Qed.

(** ** [MaxVoteCountForm.__init__] *)

(** C8. On a form that has both fields, [__init__] succeeds. The toggle
    it reads is the live value of [has_max_vote_count]: the bound field's
    value when the form is bound, the initial value otherwise. When the
    toggle is truthy the attributes of the [max_vote_count] widget get
    [required = True] and nothing else; when it is falsy they get
    [disabled = True] and [value = ''] and nothing else. On a widget that
    carried neither mark before, exactly one of [required] and [disabled]
    is set afterwards. *)
Theorem init_toggles_max_vote_count (boundfield_value : Form → string → pyval)
    (self : Form) (has_fld max_fld : Field) :
  fields self !! "has_max_vote_count" = Some has_fld →
  fields self !! "max_vote_count" = Some max_fld →
  ∃ self' toggle max_fld',
    MaxVoteCountForm.__init__ boundfield_value self = Ok self'
    ∧ FieldDataMixin.get_field_value boundfield_value self "has_max_vote_count"
      = Ok toggle
    ∧ toggle = (if is_bound self
                then boundfield_value self "has_max_vote_count"
                else dict_get (initial self) "has_max_vote_count" PNone)
    ∧ fields self' !! "max_vote_count" = Some max_fld'
    ∧ (truthy toggle = true →
       widget_attrs max_fld'
       = <["required" := PBool true]> (widget_attrs max_fld))
    ∧ (truthy toggle = false →
       widget_attrs max_fld'
       = <["value" := PStr ""]>
           (<["disabled" := PBool true]> (widget_attrs max_fld)))
    ∧ (widget_attrs max_fld !! "required" = None →
       widget_attrs max_fld !! "disabled" = None →
       (widget_attrs max_fld' !! "required" = Some (PBool true)
        ∧ widget_attrs max_fld' !! "disabled" = None)
       ∨ (widget_attrs max_fld' !! "required" = None
          ∧ widget_attrs max_fld' !! "disabled" = Some (PBool true)
          ∧ widget_attrs max_fld' !! "value" = Some (PStr ""))).
Proof.
  intros Hhas Hmax.
  unfold MaxVoteCountForm.__init__, FieldDataMixin.get_field_value, dict_item.
  rewrite Hhas, Hmax. run.
  set (toggle := if is_bound self
                 then boundfield_value self "has_max_vote_count"
                 else dict_get (initial self) "has_max_vote_count" PNone).
  assert (Hread : (if is_bound self
                   then Ok (boundfield_value self "has_max_vote_count")
                   else Ok (dict_get (initial self) "has_max_vote_count" PNone))
                  = Ok toggle) by (unfold toggle; by destruct (is_bound self)).
  rewrite Hread. cbn.
  destruct (truthy toggle) eqn:Htoggle.
  - eexists _, toggle, _. split; [reflexivity|]. split; [done|]. split; [done|].
    split.
    { cbn. rewrite lookup_alter_eq, lookup_alter_ne by done.
      rewrite Hmax. reflexivity. }
    cbn. split; [done|]. split; [intros; congruence|]. intros Hreq Hdis. left.
    rewrite lookup_insert_eq, lookup_insert_ne by done. done.
  - eexists _, toggle, _. split; [reflexivity|]. split; [done|]. split; [done|].
    split.
    { cbn. rewrite lookup_alter_eq, lookup_alter_ne by done.
      rewrite Hmax. reflexivity. }
    cbn. split; [intros; congruence|]. split; [done|]. intros Hreq Hdis. right.
    rewrite lookup_insert_eq, !lookup_insert_ne, lookup_insert_eq by done. done.
Qed.

Lemma init_toggles_max_vote_count_witness :
  let boundfield_value := λ (_ : Form) (_ : string), PBool true in
  let has_fld := mkField ∅ in
  let max_fld := mkField {[ "min" := PInt 0 ]} in
  let self :=
    mkForm true ∅
      {[ "has_max_vote_count" := has_fld; "max_vote_count" := max_fld ]} ∅ ∅ in
  ∃ self' toggle max_fld',
    MaxVoteCountForm.__init__ boundfield_value self = Ok self'
    ∧ FieldDataMixin.get_field_value boundfield_value self "has_max_vote_count"
      = Ok toggle
    ∧ toggle = (if is_bound self
                then boundfield_value self "has_max_vote_count"
                else dict_get (initial self) "has_max_vote_count" PNone)
    ∧ fields self' !! "max_vote_count" = Some max_fld'
    ∧ (truthy toggle = true →
       widget_attrs max_fld'
       = <["required" := PBool true]> (widget_attrs max_fld))
    ∧ (truthy toggle = false →
       widget_attrs max_fld'
       = <["value" := PStr ""]>
           (<["disabled" := PBool true]> (widget_attrs max_fld)))
    ∧ (widget_attrs max_fld !! "required" = None →
       widget_attrs max_fld !! "disabled" = None →
       (widget_attrs max_fld' !! "required" = Some (PBool true)
        ∧ widget_attrs max_fld' !! "disabled" = None)
       ∨ (widget_attrs max_fld' !! "required" = None
          ∧ widget_attrs max_fld' !! "disabled" = Some (PBool true)
          ∧ widget_attrs max_fld' !! "value" = Some (PStr ""))).
Proof.
  intros boundfield_value has_fld max_fld self.
  apply (init_toggles_max_vote_count boundfield_value self has_fld max_fld).
  - vm_compute. reflexivity.
  - vm_compute. reflexivity.
Defined.

(** ** [QuestionFollowersFormSet.clean] *)

Lemma py_eq_sym (a b : pyval) : py_eq a b = py_eq b a.
Proof.
  destruct a, b; cbn; try done;
    try (by rewrite Z.eqb_sym); try (by rewrite String.eqb_sym);
    by destruct b, b0.
Qed.

Lemma py_in_snoc (y x : pyval) (seen : list pyval) :
  py_in y (seen ++ [x]) = py_in y seen || py_eq y x.
Proof. unfold py_in. rewrite existsb_app. cbn. by rewrite orb_false_r. Qed.

Lemma repeats_from_iff (values seen : list pyval) :
  repeats_from seen values = true
  ↔ ∃ (j : nat) y,
      values !! j = Some y
      ∧ (py_in y seen = true
         ∨ ∃ (i : nat) x, (i < j)%nat ∧ values !! i = Some x ∧ py_eq y x = true).
Proof.
  revert seen. induction values as [|x values IH]; intros seen; cbn.
  - split; [done|]. by intros (j & y & Hj & _).
  - rewrite orb_true_iff, IH. split.
    + intros [Hin|(j & y & Hj & Hrep)].
      * exists 0%nat, x. split; [done|]. by left.
      * exists (S j), y. split; [done|].
        destruct Hrep as [Hin|(i & x' & Hlt & Hi & Heq)].
        -- rewrite py_in_snoc in Hin. apply orb_true_iff in Hin as [Hin|Heq].
           ++ by left.
           ++ right. exists 0%nat, x. split; [lia|]. done.
        -- right. exists (S i), x'. split; [lia|]. done.
    + intros ([|j] & y & Hj & Hrep); cbn in Hj.
      * injection Hj as ->. destruct Hrep as [Hin|(i & x' & Hlt & _)]; [|lia].
        by left.
      * right. exists j, y. split; [done|].
        destruct Hrep as [Hin|([|i] & x' & Hlt & Hi & Heq)]; cbn in *.
        -- left. rewrite py_in_snoc, Hin. done.
        -- injection Hi as ->. left. rewrite py_in_snoc, Heq. apply orb_true_r.
        -- right. exists i, x'. split; [lia|]. done.
Qed.

Lemma repeats_from_nil_iff (values : list pyval) :
  repeats_from [] values = true ↔ same_value_twice values.
Proof.
  rewrite repeats_from_iff. unfold same_value_twice. split.
  - intros (j & y & Hj & [Hin|(i & x & Hlt & Hi & Heq)]); [done|].
    by exists i, j, x, y.
  - intros (i & j & x & y & Hlt & Hi & Hj & Heq).
    exists j, y. split; [done|]. right. by exists i, x.
Qed.

(** The loop calls [add_error], once, exactly when a follower repeats. *)
Lemma clean_loop_repeats
    (self_add_error : string → ValidationError → FormSet → result FormSet)
    (self : FormSet) (rest : list Form) (seen : list pyval) :
  QuestionFollowersFormSet.clean_loop self_add_error rest seen self
  = if repeats_from seen
         ((λ form, dict_get (cleaned_data form) "follower" PNone)
            <$> filter (λ form, can_delete self && should_delete_form form = false)
                  rest)
    then self_add_error NON_FIELD_ERRORS
           QuestionFollowersFormSet.duplicate_values self
    else Ok self.
Proof.
  revert seen. induction rest as [|form rest IH]; intros seen; [done|].
  destruct (can_delete self && should_delete_form form) eqn:Hdel.
  - rewrite filter_cons_False by (rewrite Hdel; done).
    cbn [QuestionFollowersFormSet.clean_loop]. rewrite Hdel. apply IH.
  - rewrite filter_cons_True by done.
    cbn [QuestionFollowersFormSet.clean_loop fmap list_fmap repeats_from].
    rewrite Hdel.
    destruct (py_in _ seen); [done|]. cbn [orb]. apply IH.
Qed.

(** Whatever [add_error] does, [clean] after base validation is one call
    of it when two counted forms have the same follower, and nothing
    otherwise. *)
Lemma followers_clean_cases
    (super_clean : FormSet → result FormSet)
    (self_add_error : string → ValidationError → FormSet → result FormSet)
    (self base : FormSet) :
  super_clean self = Ok base →
  (same_value_twice (followers_of base) →
   QuestionFollowersFormSet.clean super_clean self_add_error self
   = self_add_error NON_FIELD_ERRORS
       QuestionFollowersFormSet.duplicate_values base)
  ∧ (¬ same_value_twice (followers_of base) →
     QuestionFollowersFormSet.clean super_clean self_add_error self = Ok base).
Proof.
  intros Hbase. unfold QuestionFollowersFormSet.clean. rewrite Hbase. cbn.
  rewrite clean_loop_repeats.
  fold (counted_forms base). fold (followers_of base).
  destruct (repeats_from [] (followers_of base)) eqn:Hrep.
  - split; [done|]. intros Hno. contradict Hno. by apply repeats_from_nil_iff.
  - split; [|done]. intros Htwice.
    apply repeats_from_nil_iff in Htwice. congruence.
Qed.

(** On a formset that had an [add_error] recording the error, [clean]
    would do what it is written for: one more non-field error for a
    repeated follower, none for distinct followers. *)
Lemma followers_clean_unique_if_recorded (super_clean : FormSet → result FormSet)
    (self base : FormSet) (v : Validation) :
  super_clean self = Ok base →
  validation base = Some v →
  ∃ self',
    QuestionFollowersFormSet.clean super_clean
      QuestionFollowersFormSet.add_non_field_error self = Ok self'
    ∧ forms self' = forms base
    ∧ _errors <$> validation self' = Some (_errors v)
    ∧ (same_value_twice (followers_of base) →
       _non_form_errors <$> validation self'
       = Some (_non_form_errors v
               ++ [QuestionFollowersFormSet.duplicate_values]))
    ∧ (¬ same_value_twice (followers_of base) → self' = base).
Proof.
  intros Hbase Hv.
  destruct (followers_clean_cases super_clean
              QuestionFollowersFormSet.add_non_field_error self base Hbase)
    as [Hdup Hdistinct].
  destruct (repeats_from [] (followers_of base)) eqn:Hrep.
  - apply repeats_from_nil_iff in Hrep. rewrite (Hdup Hrep).
    eexists. split; [reflexivity|]. cbn. rewrite Hv. cbn.
    repeat split; try done.
  - assert (Hno : ¬ same_value_twice (followers_of base)).
    { intros Htwice. apply repeats_from_nil_iff in Htwice. congruence. }
    rewrite (Hdistinct Hno). exists base. rewrite Hv. repeat split; try done.
Qed.

(** On Django's formset, distinct followers pass and a repeated follower
    makes [clean] raise. *)
Lemma followers_clean_on_django (super_clean : FormSet → result FormSet)
    (self base : FormSet) :
  super_clean self = Ok base →
  (same_value_twice (followers_of base) →
   QuestionFollowersFormSet.clean super_clean
     QuestionFollowersFormSet.formset_add_error self = Raise AttributeError)
  ∧ (¬ same_value_twice (followers_of base) →
     QuestionFollowersFormSet.clean super_clean
       QuestionFollowersFormSet.formset_add_error self = Ok base).
Proof.
  intros Hbase.
  apply (followers_clean_cases super_clean
           QuestionFollowersFormSet.formset_add_error self base Hbase).
Qed.

(** C2 at the input that breaks it: two forms that are not marked for
    deletion have the same follower, and [clean] raises instead of leaving
    one non-field error on the formset. *)
Theorem followers_clean_duplicate_raises :
  let base :=
    mkFormSet [follower_form (PModel 7) false; follower_form (PModel 7) false]
      true (Some (mkValidation [∅; ∅] [])) in
  same_value_twice (followers_of base)
  ∧ QuestionFollowersFormSet.clean Ok
      QuestionFollowersFormSet.formset_add_error base
    = Raise AttributeError.
Proof.
  intros base. split; [|vm_compute; reflexivity].
  exists 0%nat, 1%nat, (PModel 7), (PModel 7).
  repeat split; [lia|vm_compute; reflexivity..].
Qed.

Example followers_clean_distinct :
  let base :=
    mkFormSet
      [follower_form (PModel 7) false; follower_form (PModel 8) false;
       follower_form (PModel 8) true]
      true (Some (mkValidation [∅; ∅] [])) in
  QuestionFollowersFormSet.clean Ok
    QuestionFollowersFormSet.formset_add_error base = Ok base.
Proof. vm_compute. reflexivity. Qed.

Example followers_clean_recorded :
  let base :=
    mkFormSet
      [follower_form (PModel 7) false; follower_form (PModel 8) false;
       follower_form (PModel 8) true; follower_form (PModel 7) false;
       follower_form (PModel 7) false]
      true (Some (mkValidation [∅; ∅; ∅; ∅] [])) in
  ∃ self',
    QuestionFollowersFormSet.clean Ok
      QuestionFollowersFormSet.add_non_field_error base = Ok self'
    ∧ _non_form_errors <$> validation self'
      = Some [QuestionFollowersFormSet.duplicate_values].
Proof. eexists. split; vm_compute; reflexivity. Qed.

(** ** Strings: [split] at the first occurrence *)

Lemma string_app_cons (ch : Ascii.ascii) (a b : string) :
  String ch a +:+ b = String ch (a +:+ b).
Proof. reflexivity. Qed.

Lemma string_app_nil_l (b : string) : "" +:+ b = b.
Proof. reflexivity. Qed.

Ltac str := rewrite ?string_app_cons, ?string_app_nil_l in *.

Lemma string_app_assoc (a b c : string) : (a +:+ b) +:+ c = a +:+ b +:+ c.
Proof. induction a as [|ch a IH]; str; [done|]. by f_equal. Qed.

Lemma string_app_nil_r (a : string) : a +:+ "" = a.
Proof. induction a as [|ch a IH]; str; [done|]. by f_equal. Qed.

Lemma string_length_app (a b : string) :
  String.length (a +:+ b) = (String.length a + String.length b)%nat.
Proof. induction a as [|ch a IH]; str; cbn; [done|]. by f_equal. Qed.

Lemma string_drop_app (a b : string) : string_drop (String.length a) (a +:+ b) = b.
Proof. induction a as [|ch a IH]; str; cbn; [by destruct b|]. done. Qed.

Lemma prefix_app (sep r : string) : String.prefix sep (sep +:+ r) = true.
Proof.
  induction sep as [|ch sep IH]; str; cbn; [by destruct r|].
  destruct (Ascii.ascii_dec ch ch); [done|congruence].
Qed.

Lemma prefix_inv (sep s : string) :
  String.prefix sep s = true →
  s = sep +:+ string_drop (String.length sep) s.
Proof.
  revert s. induction sep as [|ch sep IH]; intros s Hpre; str; cbn; [by destruct s|].
  destruct s as [|ch' s]; cbn in Hpre; [done|].
  destruct (Ascii.ascii_dec ch ch') as [->|]; [|done].
  f_equal. by apply IH.
Qed.

(** When two splits of one string are compared, the later tail is a
    tail of the earlier one. *)
Lemma app_eq_tail (u v b b' : string) :
  u +:+ b = v +:+ b' →
  (String.length v ≤ String.length u)%nat →
  ∃ m, b' = m +:+ b.
Proof.
  revert u. induction v as [|ch v IH]; intros u Heq Hlen; str.
  - exists u. done.
  - destruct u as [|ch' u]; cbn in Hlen; [lia|]. str.
    injection Heq as -> Heq. apply (IH u); [done|lia].
Qed.

Lemma split_once_Some (sep s before after : string) :
  split_once sep s = Some (before, after) → s = before +:+ sep +:+ after.
Proof.
  revert before. induction s as [|ch s IH]; intros before; cbn [split_once].
  - destruct (String.prefix sep "") eqn:Hpre; [|done].
    intros [= <- <-]. str. by apply prefix_inv.
  - destruct (String.prefix sep (String ch s)) eqn:Hpre.
    + intros [= <- <-]. str. by apply prefix_inv.
    + destruct (split_once sep s) as [[b a]|] eqn:Hrec; [|done].
      intros [= <- <-]. str. f_equal. by apply IH.
Qed.

Lemma split_once_None (sep s : string) :
  split_once sep s = None → ¬ contains sep s.
Proof.
  induction s as [|ch s IH]; cbn [split_once].
  - destruct (String.prefix sep "") eqn:Hpre; [done|].
    intros _ ([|? ?] & after & Heq); str; [|done].
    rewrite Heq, prefix_app in Hpre. done.
  - destruct (String.prefix sep (String ch s)) eqn:Hpre; [done|].
    destruct (split_once sep s) as [[b a]|] eqn:Hrec; [done|].
    intros _ ([|ch' before] & after & Heq); str.
    + rewrite Heq, prefix_app in Hpre. done.
    + injection Heq as -> Heq. apply IH; [done|]. by exists before, after.
Qed.

(** The split is at the first occurrence: what follows any occurrence of
    [sep] is a tail of what the split returns. *)
Lemma split_once_first (sep s before after : string) :
  s = before +:+ sep +:+ after →
  ∃ before' after' m,
    split_once sep s = Some (before', after') ∧ after' = m +:+ after.
Proof.
  revert before. induction s as [|ch s IH]; intros before Heq.
  - destruct before; str; [|done].
    destruct sep; str; [|done]. subst after.
    cbn. by exists "", "", "".
  - cbn [split_once]. destruct (String.prefix sep (String ch s)) eqn:Hpre.
    + apply prefix_inv in Hpre.
      destruct (app_eq_tail (before +:+ sep) sep after
                  (string_drop (String.length sep) (String ch s))) as [m Hm].
      * by rewrite string_app_assoc, <- Heq.
      * rewrite string_length_app. lia.
      * by eexists _, _, m.
    + destruct before as [|ch' before]; str.
      * rewrite Heq, prefix_app in Hpre. done.
      * injection Heq as -> Heq.
        destruct (IH before Heq) as (b' & a' & m & -> & ->).
        by eexists _, _, m.
Qed.

(** ** [FileS3UploadField.clean] *)

(** [s.split(sep, maxsplit=1)[1]] *)
Lemma split_second (s sep : string) :
  (parts ← py_split s sep; list_item parts 1)
  = if String.eqb sep "" then Raise ValueError
    else match split_once sep s with
         | Some (_, after) => Ok after
         | None => Raise IndexError
         end.
Proof.
  unfold py_split. destruct (String.eqb sep ""); [done|].
  by destruct (split_once sep s) as [[b a]|].
Qed.

Lemma with_slash_nonempty (key file_dir : string) :
  FileS3UploadField.with_slash key = Ok file_dir → file_dir ≠ "".
Proof.
  unfold FileS3UploadField.with_slash. destruct key as [|ch key]; [done|].
  destruct (string_last (String ch key)) as [last|]; [|done]. cbn.
  destruct (negb (Ascii.eqb last FileS3UploadField.slash)); intros [= <-]; done.
Qed.

(** With the settings in place, [clean] on a non-empty URL is two splits. *)
Lemma s3_clean_configured (bucket : string)
    (destinations : gmap string (gmap string string)) (dest : string)
    (super_clean : pyval → result string) (value : pyval)
    (url key file_dir : string) (destination : gmap string string) :
  super_clean value = Ok url → url ≠ "" →
  destinations !! dest = Some destination → destination !! "key" = Some key →
  FileS3UploadField.with_slash key = Ok file_dir → bucket ≠ "" →
  FileS3UploadField.clean bucket destinations dest super_clean value
  = match split_once bucket url with
    | Some (_, after) =>
        match split_once file_dir after with
        | Some (_, file_name) => Ok file_name
        | None => Raise IndexError
        end
    | None => Raise IndexError
    end.
Proof.
  intros Hurl Hne Hdest Hkey Hslash Hbucket.
  unfold FileS3UploadField.clean. rewrite Hurl. cbn.
  rewrite (proj2 (String.eqb_neq url "")) by done. cbn.
  unfold dict_item. rewrite Hdest. cbn. rewrite Hkey. cbn. rewrite Hslash. cbn.
  pose proof (split_second url bucket) as H1. cbn in H1.
  rewrite (proj2 (String.eqb_neq bucket "")) in H1 by done.
  destruct (py_split url bucket) as [parts|e] eqn:Hparts; cbn in *.
  - destruct (list_item parts 1) as [after|e] eqn:Hitem; cbn.
    + destruct (split_once bucket url) as [[b a]|]; [|done].
      injection H1 as ->.
      pose proof (split_second a file_dir) as H2. cbn in H2.
      rewrite (proj2 (String.eqb_neq file_dir "")) in H2
        by (by eapply with_slash_nonempty).
      destruct (py_split a file_dir) as [parts'|e'] eqn:Hparts'; cbn in *.
      * destruct (list_item parts' 1) eqn:Hitem'.
        -- by destruct (split_once file_dir a) as [[b' a']|].
        -- by destruct (split_once file_dir a) as [[b' a']|].
      * by destruct (split_once file_dir a) as [[b' a']|].
    + by destruct (split_once bucket url) as [[b a]|].
  - by destruct (split_once bucket url) as [[b a]|].
Qed.

(** C10. [clean] returns the empty string when URL cleaning yields the
    empty string. On a non-empty cleaned URL it returns a file name only
    when the settings are in place and the URL contains the bucket name
    followed later by the destination directory (with its closing slash),
    the file name being what comes after; with the settings in place that
    containment is also enough, and a URL without it, in particular one
    that lacks either substring, makes the indexing of the second element
    fail with an [IndexError]. *)
Theorem s3_clean_file_name (bucket : string)
    (destinations : gmap string (gmap string string)) (dest : string)
    (super_clean : pyval → result string) (value : pyval) :
  (super_clean value = Ok "" →
   FileS3UploadField.clean bucket destinations dest super_clean value = Ok "")
  ∧ (∀ url, super_clean value = Ok url → url ≠ "" →
     (∀ file_name,
        FileS3UploadField.clean bucket destinations dest super_clean value
        = Ok file_name →
        bucket ≠ ""
        ∧ ∃ destination key file_dir before between,
            destinations !! dest = Some destination
            ∧ destination !! "key" = Some key
            ∧ FileS3UploadField.with_slash key = Ok file_dir
            ∧ url = before +:+ bucket +:+ between +:+ file_dir +:+ file_name)
     ∧ (∀ destination key file_dir,
          destinations !! dest = Some destination →
          destination !! "key" = Some key →
          FileS3UploadField.with_slash key = Ok file_dir →
          bucket ≠ "" →
          ((∃ before between rest,
              url = before +:+ bucket +:+ between +:+ file_dir +:+ rest) →
           ∃ file_name,
             FileS3UploadField.clean bucket destinations dest super_clean value
             = Ok file_name)
          ∧ (¬ (∃ before between rest,
                  url = before +:+ bucket +:+ between +:+ file_dir +:+ rest) →
             FileS3UploadField.clean bucket destinations dest super_clean value
             = Raise IndexError)
          ∧ (¬ contains bucket url ∨ ¬ contains file_dir url →
             FileS3UploadField.clean bucket destinations dest super_clean value
             = Raise IndexError))).
Proof.
  split.
  { intros Hurl. unfold FileS3UploadField.clean. by rewrite Hurl. }
  intros url Hurl Hne.
  assert (Hsplit : ∀ destination key file_dir,
    destinations !! dest = Some destination →
    destination !! "key" = Some key →
    FileS3UploadField.with_slash key = Ok file_dir →
    bucket ≠ "" →
    ∀ file_name,
      FileS3UploadField.clean bucket destinations dest super_clean value
      = Ok file_name →
      ∃ before between,
        url = before +:+ bucket +:+ between +:+ file_dir +:+ file_name).
  { intros destination key file_dir Hdest Hkey Hslash Hbucket file_name.
    rewrite (s3_clean_configured bucket destinations dest super_clean value
               url key file_dir destination) by done.
    destruct (split_once bucket url) as [[before after]|] eqn:H1; [|done].
    destruct (split_once file_dir after) as [[between name]|] eqn:H2; [|done].
    intros [= <-]. apply split_once_Some in H1, H2. subst after.
    by exists before, between. }
  split.
  - intros file_name Hclean.
    destruct (destinations !! dest) as [destination|] eqn:Hdest; cycle 1.
    { unfold FileS3UploadField.clean, dict_item in Hclean.
      rewrite Hurl in Hclean. cbn in Hclean.
      rewrite (proj2 (String.eqb_neq url "")), Hdest in Hclean by done. done. }
    destruct (destination !! "key") as [key|] eqn:Hkey; cycle 1.
    { unfold FileS3UploadField.clean, dict_item in Hclean.
      rewrite Hurl in Hclean. cbn in Hclean.
      rewrite (proj2 (String.eqb_neq url "")), Hdest in Hclean by done.
      cbn in Hclean. rewrite Hkey in Hclean. done. }
    destruct (FileS3UploadField.with_slash key) as [file_dir|e] eqn:Hslash; cycle 1.
    { unfold FileS3UploadField.clean, dict_item in Hclean.
      rewrite Hurl in Hclean. cbn in Hclean.
      rewrite (proj2 (String.eqb_neq url "")), Hdest in Hclean by done.
      cbn in Hclean. rewrite Hkey in Hclean. cbn in Hclean.
      rewrite Hslash in Hclean. done. }
    destruct (decide (bucket = "")) as [->|Hbucket].
    { unfold FileS3UploadField.clean, dict_item in Hclean.
      rewrite Hurl in Hclean. cbn in Hclean.
      rewrite (proj2 (String.eqb_neq url "")), Hdest in Hclean by done.
      cbn in Hclean. rewrite Hkey in Hclean. cbn in Hclean.
      rewrite Hslash in Hclean. done. }
    split; [done|].
    destruct (Hsplit destination key file_dir eq_refl Hkey Hslash Hbucket
                file_name Hclean) as (before & between & Heq).
    by exists destination, key, file_dir, before, between.
  - intros destination key file_dir Hdest Hkey Hslash Hbucket.
    pose proof (s3_clean_configured bucket destinations dest super_clean value
                  url key file_dir destination Hurl Hne Hdest Hkey Hslash
                  Hbucket) as Hclean.
    assert (Hyes : (∃ before between rest,
               url = before +:+ bucket +:+ between +:+ file_dir +:+ rest) →
             ∃ file_name,
               FileS3UploadField.clean bucket destinations dest super_clean
                 value = Ok file_name).
    { intros (before & between & rest & Heq). rewrite Hclean.
      destruct (split_once_first bucket url before
                  (between +:+ file_dir +:+ rest) Heq)
        as (b' & a' & m & -> & ->).
      destruct (split_once_first file_dir (m +:+ between +:+ file_dir +:+ rest)
                  (m +:+ between) rest) as (b'' & a'' & m' & -> & _).
      { by rewrite string_app_assoc. }
      by eexists. }
    assert (Hno : ¬ (∃ before between rest,
               url = before +:+ bucket +:+ between +:+ file_dir +:+ rest) →
             FileS3UploadField.clean bucket destinations dest super_clean value
             = Raise IndexError).
    { intros Hnone. rewrite Hclean.
      destruct (split_once bucket url) as [[before after]|] eqn:H1; [|done].
      destruct (split_once file_dir after) as [[between name]|] eqn:H2; [|done].
      contradict Hnone. apply split_once_Some in H1, H2. subst after.
      by exists before, between, name. }
    split; [done|]. split; [done|].
    intros Hlacks. apply Hno. intros (before & between & rest & Heq).
    destruct Hlacks as [Hlacks|Hlacks]; apply Hlacks.
    + by exists before, (between +:+ file_dir +:+ rest).
    + exists (before +:+ bucket +:+ between), rest.
      by rewrite !string_app_assoc.
Qed.

Example s3_clean_extracts :
  FileS3UploadField.clean "bucket"
    {[ "document" := {[ "key" := "uploads/docs" ]} ]} "document"
    (λ value, match value with PStr url => Ok url | _ => Raise ValidationFailed end)
    (PStr "https://s3.amazonaws.com/bucket/uploads/docs/a.pdf")
  = Ok "a.pdf".
Proof. vm_compute. reflexivity. Qed.

Example s3_clean_other_bucket :
  FileS3UploadField.clean "bucket"
    {[ "document" := {[ "key" := "uploads/docs" ]} ]} "document"
    (λ value, match value with PStr url => Ok url | _ => Raise ValidationFailed end)
    (PStr "https://s3.amazonaws.com/other/uploads/docs/a.pdf")
  = Raise IndexError.
Proof. vm_compute. reflexivity. Qed.

(** ** [UserFilter.filter_count_gte] *)

Section filter_count_gte.
Import UserFilter.

Lemma join_rows_fst (rel : list (Z * Z)) (u : User) :
  ∃ n, fst <$> join_rows rel u = replicate (S n) u.
Proof.
  unfold join_rows. destruct (filter _ rel) as [|r ms]; [by exists 0%nat|].
  exists (length ms). cbn. f_equal.
  induction ms as [|r' ms IH]; cbn; [done|]. by f_equal.
Qed.

Lemma join_rows_count (rel : list (Z * Z)) (u : User) :
  count_column (snd <$> join_rows rel u) = related_count rel u.
Proof.
  unfold join_rows, count_column, related_count.
  destruct (filter _ rel) as [|r ms]; [done|].
  f_equal. generalize (r :: ms). intros l.
  induction l as [|r' l IH]; [done|]. cbn [fmap list_fmap].
  rewrite filter_cons_True by (by eexists). cbn. by f_equal.
Qed.

Lemma left_outer_join_fst_elem (rel : list (Z * Z)) (qs : list User) (u : User) :
  u ∈ fst <$> left_outer_join qs rel → u ∈ qs.
Proof.
  unfold left_outer_join. induction qs as [|u' qs IH]; cbn; [done|].
  rewrite fmap_app, elem_of_app. intros [Hin|Hin].
  - destruct (join_rows_fst rel u') as [n Hn]. rewrite Hn in Hin.
    apply elem_of_replicate in Hin as [-> _]. left.
  - right. by apply IH.
Qed.

Lemma remove_dups_replicate_app (u : User) (n : nat) (l : list User) :
  u ∉ l → remove_dups (replicate (S n) u ++ l) = u :: remove_dups l.
Proof.
  intros Hnot. induction n as [|n IH].
  - cbn. by destruct (decide_rel elem_of u l).
  - change (replicate (S (S n)) u ++ l) with (u :: (replicate (S n) u ++ l)).
    cbn [remove_dups].
    destruct (decide_rel elem_of u (replicate (S n) u ++ l)) as [_|Hn];
      [apply IH|]. contradict Hn. cbn. left.
Qed.

Lemma left_outer_join_users (rel : list (Z * Z)) (qs : list User) :
  NoDup qs → remove_dups (fst <$> left_outer_join qs rel) = qs.
Proof.
  induction 1 as [|u qs Hnot Hnodup IH]; [done|].
  unfold left_outer_join in *. cbn. rewrite fmap_app.
  destruct (join_rows_fst rel u) as [n ->].
  rewrite remove_dups_replicate_app, IH; [done|].
  intros Hin. by apply left_outer_join_fst_elem in Hin.
Qed.

Lemma join_rows_filter (rel : list (Z * Z)) (u u' : User) :
  filter (λ r, r.1 = u) (join_rows rel u')
  = if decide (u' = u) then join_rows rel u' else [].
Proof.
  assert (Hall : Forall (λ r, r.1 = u') (join_rows rel u')).
  { unfold join_rows. destruct (filter _ rel) as [|r ms].
    - by repeat constructor.
    - generalize (r :: ms). intros l. induction l; constructor; done. }
  induction Hall as [|r l Hr Hall IH]; [by case_decide|].
  case_decide as Hu.
  - subst u'. rewrite filter_cons_True by done. by f_equal.
  - by rewrite filter_cons_False by congruence.
Qed.

Lemma left_outer_join_group (rel : list (Z * Z)) (qs : list User) (u : User) :
  NoDup qs → u ∈ qs →
  filter (λ r, r.1 = u) (left_outer_join qs rel) = join_rows rel u.
Proof.
  unfold left_outer_join.
  induction 1 as [|u' qs Hnot Hnodup IH]; [by intros ?%elem_of_nil|].
  cbn. rewrite filter_app, join_rows_filter. intros Hin.
  assert (Hrest : ∀ qs', u ∉ qs' →
            filter (λ r : User * option Z, r.1 = u)
              (qs' ≫= join_rows rel) = []).
  { induction qs' as [|v qs' IH']; [done|]. cbn.
    rewrite not_elem_of_cons. intros [Hne Hnin].
    rewrite filter_app, join_rows_filter, decide_False by done.
    by apply IH'. }
  case_decide as Hu.
  - subst u'. rewrite Hrest by done. by rewrite app_nil_r.
  - apply elem_of_cons in Hin as [->|Hin]; [done|]. by apply IH.
Qed.

Lemma annotate_count_rows (relations : gmap string (list (Z * Z)))
    (qs : list User) (name : string) (rel : list (Z * Z)) :
  relations !! name = Some rel → NoDup qs →
  annotate_count relations qs name
  = Ok ((λ u, (u, related_count rel u)) <$> qs).
Proof.
  intros Hrel Hnodup. unfold annotate_count, group_by. rewrite Hrel. f_equal.
  rewrite left_outer_join_users by done. rewrite <- list_fmap_compose.
  apply list_fmap_ext. intros i u Hi. cbn. f_equal.
  rewrite left_outer_join_group; [apply join_rows_count|done|].
  by eapply list_elem_of_lookup_2.
Qed.

Lemma filter_annotated (value : Z) (count : User → Z) (qs : list User) :
  filter (λ row : User * Z, value ≤ row.2) ((λ u, (u, count u)) <$> qs)
  = (λ u, (u, count u)) <$> filter (λ u, value ≤ count u) qs.
Proof.
  induction qs as [|u qs IH]; [done|]. cbn [fmap list_fmap].
  rewrite !filter_cons. cbn. destruct (decide (value ≤ count u)); [|done].
  cbn. by f_equal.
Qed.

Lemma filter_count_gte_rows (relations : gmap string (list (Z * Z)))
    (queryset : list User) (name : string) (value : Q) (rel : list (Z * Z)) :
  relations !! name = Some rel → NoDup queryset →
  filter_count_gte relations queryset name value
  = Ok ((λ u, (u, related_count rel u))
          <$> filter (λ u, py_int value ≤ related_count rel u) queryset).
Proof.
  intros Hrel Hnodup. unfold filter_count_gte, filter_name_count_gte.
  rewrite (annotate_count_rows _ _ _ rel) by done. cbn.
  by rewrite (filter_annotated (py_int value) (related_count rel) queryset).
Qed.

Lemma related_count_nonneg (rel : list (Z * Z)) (u : User) :
  0 ≤ related_count rel u.
Proof. unfold related_count. lia. Qed.

(** [int] leaves a whole number as it is. *)
Lemma py_int_whole (value : Q) (k : Z) :
  (value == inject_Z k)%Q → py_int value = k.
Proof.
  unfold Qeq, py_int. cbn. intros Heq.
  assert (Hnum : Qnum value = k * Z.pos (Qden value)) by lia.
  rewrite Hnum. by apply Z.quot_mul.
Qed.

(** [int] is monotone. *)
Lemma py_int_mono (value value' : Q) :
  (value <= value')%Q → py_int value ≤ py_int value'.
Proof.
  unfold Qle, py_int. intros Hle.
  rewrite <- (Z.quot_mul_cancel_r (Qnum value) (Z.pos (Qden value))
                (Z.pos (Qden value'))) by done.
  rewrite <- (Z.quot_mul_cancel_r (Qnum value') (Z.pos (Qden value'))
                (Z.pos (Qden value))) by done.
  rewrite (Z.mul_comm (Z.pos (Qden value')) (Z.pos (Qden value))).
  apply Z.quot_le_mono; lia.
Qed.

(** Against a count, which is not negative, [int(value) <= count] says
    that [value] is below the next whole number. *)
Lemma py_int_le_count (value : Q) (count : Z) :
  0 ≤ count →
  py_int value ≤ count ↔ (value < inject_Z (count + 1))%Q.
Proof.
  intros Hcount. unfold Qlt, py_int. cbn.
  set (a := Qnum value). set (b := Z.pos (Qden value)).
  assert (Hb : 0 < b) by (unfold b; lia).
  rewrite Z.mul_1_r.
  destruct (decide (0 ≤ a)) as [Ha|Ha].
  - rewrite Z.quot_div_nonneg by lia.
    pose proof (Z.div_mod a b ltac:(lia)) as Hdiv.
    pose proof (Z.mod_pos_bound a b Hb) as Hmod.
    split; intros H; nia.
  - assert (a ÷ b ≤ 0).
    { rewrite <- (Z.quot_0_l b) by lia. apply Z.quot_le_mono; lia. }
    split; intros _; nia.
Qed.

(** C9, as the code has it. On a queryset whose rows have distinct primary
    keys, and for a relation the model has, [filter_count_gte] returns
    exactly the rows of the queryset whose number of related records is at
    least [int(value)], the threshold with its fraction dropped, each
    annotated with that number, in the queryset's order: a row is returned
    exactly when the threshold is below its count plus one. For a whole
    number these are the rows whose count is at least the threshold. *)
Theorem filter_count_gte_exact (relations : gmap string (list (Z * Z)))
    (queryset : list User) (name : string) (value : Q) (rel : list (Z * Z)) :
  relations !! name = Some rel →
  NoDup (pk <$> queryset) →
  ∃ rows,
    filter_count_gte relations queryset name value = Ok rows
    ∧ fst <$> rows
      = filter (λ u, py_int value ≤ related_count rel u) queryset
    ∧ (∀ u n, (u, n) ∈ rows → n = related_count rel u)
    ∧ (∀ u, u ∈ fst <$> rows
            ↔ u ∈ queryset ∧ py_int value ≤ related_count rel u)
    ∧ (∀ u, u ∈ fst <$> rows
            ↔ u ∈ queryset
              ∧ (value < inject_Z (related_count rel u + 1))%Q)
    ∧ (∀ k, (value == inject_Z k)%Q →
         ∀ u, u ∈ fst <$> rows
              ↔ u ∈ queryset ∧ (value <= inject_Z (related_count rel u))%Q).
Proof.
  intros Hrel Hnodup. apply NoDup_fmap_1 in Hnodup.
  rewrite (filter_count_gte_rows _ _ _ _ rel) by done.
  eexists. split; [reflexivity|].
  assert (Hfst : fst <$> ((λ u, (u, related_count rel u))
                   <$> filter (λ u, py_int value ≤ related_count rel u) queryset)
                 = filter (λ u, py_int value ≤ related_count rel u) queryset).
  { rewrite <- list_fmap_compose. apply list_fmap_id. }
  rewrite Hfst. split; [done|]. split_and!.
  - intros u n Hin. apply list_elem_of_fmap in Hin as (u' & [= -> ->] & _). done.
  - intros u. by rewrite list_elem_of_filter, (comm and).
  - intros u. rewrite list_elem_of_filter, (comm and).
    by rewrite (py_int_le_count value _ (related_count_nonneg rel u)).
  - intros k Hk u. rewrite list_elem_of_filter, (comm and).
    rewrite (py_int_whole value k Hk), Hk.
    unfold Qle. cbn. by rewrite !Z.mul_1_r.
Qed.

Lemma filter_count_gte_exact_witness :
  let relations : gmap string (list (Z * Z)) :=
    {[ "user_followed" := [(1, 2); (1, 3); (3, 1)] ]} in
  let queryset := [mkUser 1 10 "a"; mkUser 2 20 "b"; mkUser 3 30 "b"] in
  let rel := [(1, 2); (1, 3); (3, 1)] in
  let value := (3 # 2)%Q in
  ∃ rows,
    filter_count_gte relations queryset "user_followed" value = Ok rows
    ∧ fst <$> rows
      = filter (λ u, py_int value ≤ related_count rel u) queryset
    ∧ (∀ u n, (u, n) ∈ rows → n = related_count rel u)
    ∧ (∀ u, u ∈ fst <$> rows
            ↔ u ∈ queryset ∧ py_int value ≤ related_count rel u)
    ∧ (∀ u, u ∈ fst <$> rows
            ↔ u ∈ queryset
              ∧ (value < inject_Z (related_count rel u + 1))%Q)
    ∧ (∀ k, (value == inject_Z k)%Q →
         ∀ u, u ∈ fst <$> rows
              ↔ u ∈ queryset ∧ (value <= inject_Z (related_count rel u))%Q).
Proof.
  intros relations queryset rel value.
  apply (filter_count_gte_exact relations queryset "user_followed" value rel).
  - vm_compute. reflexivity.
  - apply (bool_decide_unpack _). vm_compute. exact I.
Defined.

(** C9, as stated, fails twice over. At the threshold 3/2 the user with
    one follower is returned, although one is less than 3/2; and on a
    queryset that holds a user's row twice (as after a join over another
    relation) the rows are counted twice, so that the user with two
    followers passes the threshold 3. *)
Lemma filter_count_gte_below_threshold :
  let relations : gmap string (list (Z * Z)) :=
    {[ "user_followed" := [(1, 2); (1, 3); (3, 1)] ]} in
  let rel := [(1, 2); (1, 3); (3, 1)] in
  (filter_count_gte relations
     [mkUser 1 10 "a"; mkUser 2 20 "b"; mkUser 3 30 "b"] "user_followed" (3 # 2)
   = Ok [(mkUser 1 10 "a", 2); (mkUser 3 30 "b", 1)]
   ∧ related_count rel (mkUser 3 30 "b") = 1
   ∧ (inject_Z 1 < 3 # 2)%Q)
  ∧ (filter_count_gte relations [mkUser 1 10 "a"; mkUser 1 10 "a"]
       "user_followed" 3
     = Ok [(mkUser 1 10 "a", 4)]
     ∧ related_count rel (mkUser 1 10 "a") = 2
     ∧ (inject_Z 2 < 3)%Q).
Proof.
  intros relations rel. split_and!; vm_compute; reflexivity.
Qed.

Example filter_count_gte_two_followers :
  filter_count_gte {[ "user_followed" := [(1, 2); (1, 3); (3, 1)] ]}
    [mkUser 1 10 "a"; mkUser 2 20 "b"; mkUser 3 30 "b"] "user_followed" 2
  = Ok [(mkUser 1 10 "a", 2)].
Proof. vm_compute. reflexivity. Qed.

Example filter_count_gte_unknown_relation :
  filter_count_gte {[ "user_followed" := [(1, 2); (1, 3); (3, 1)] ]}
    [mkUser 1 10 "a"] "followers" 1
  = Raise FieldError.
Proof. vm_compute. reflexivity. Qed.

End filter_count_gte.

(** * Further properties of the code *)

(** ** [QuestionForm.clean]: what it may and may not change *)

Ltac checked :=
  let x := fresh in
  let Hx := fresh in
  intros x Hx; apply list_elem_of_singleton in Hx as ->;
  unfold checked_fields; rewrite !elem_of_cons; tauto.

Lemma unchanged_outside_step (keys all : list string) (self self' : SuperForm) :
  keys ⊆ all → one_step keys self self' → unchanged_outside all self self'.
Proof.
  intros Hsub Hstep. apply one_step_frame in Hstep as (? & ? & ? & ? & Hkeys).
  split_and!; try done. intros key Hkey. apply Hkeys.
  intros Hin. apply Hkey. by apply Hsub.
Qed.

Lemma unchanged_outside_trans (keys : list string) (a b c : SuperForm) :
  unchanged_outside keys a b → unchanged_outside keys b c →
  unchanged_outside keys a c.
Proof.
  intros (? & ? & ? & Hab) (? & ? & ? & Hbc).
  split_and!; try congruence. intros key Hkey.
  destruct (Hab key Hkey), (Hbc key Hkey). split; congruence.
Qed.

Lemma unchanged_outside_same_form (keys : list string) (self self' : SuperForm) :
  form self' = form self → unchanged_outside keys self self'.
Proof. intros Hform. unfold unchanged_outside. by rewrite Hform. Qed.

(** [clean] writes to nothing of the parent form but the errors and
    cleaned values of the four cross-checked fields and the non-field
    errors: the form's fields, binding and initial data, and the errors and
    cleaned value of every other field, are as base validation left them.
    Of the nested formsets it changes nothing except by validating them:
    names and order are kept, a formset that was validated already is
    untouched, and any other is what its own [full_clean] made of it. *)
Theorem clean_writes_checked_fields_only (super_clean : M SuperForm unit)
    (full_clean : string → FormSet → result FormSet)
    (self base self' : SuperForm) :
  super_clean self = Ok (tt, base) →
  QuestionForm.clean super_clean full_clean self = Ok (tt, self') →
  unchanged_outside checked_fields base self'
  ∧ Forall2
      (λ old new : string * FormSet,
         new.1 = old.1
         ∧ (is_Some (validation old.2) ∧ new.2 = old.2
            ∨ validation old.2 = None ∧ full_clean old.1 old.2 = Ok new.2))
      (formsets base) (formsets self').
Proof.
  intros Hbase Hclean.
  apply clean_chain in Hclean
    as (base' & s1 & s2 & mid & s3 & s4 & n & counted & Hb & H1 & H2 & H3 & H4
        & H5 & _ & Hcount & Hform & H6).
  rewrite Hbase in Hb. injection Hb as <-. split.
  - eapply unchanged_outside_trans;
      [by (eapply unchanged_outside_step; [|exact H1]; checked)|].
    eapply unchanged_outside_trans;
      [by (eapply unchanged_outside_step; [|exact H2]; checked)|].
    eapply unchanged_outside_trans;
      [by (eapply unchanged_outside_step; [|exact H3]; checked)|].
    eapply unchanged_outside_trans;
      [by (eapply unchanged_outside_step; [|exact H4]; checked)|].
    eapply unchanged_outside_trans;
      [by (eapply unchanged_outside_step; [|exact H5]; checked)|].
    eapply unchanged_outside_trans;
      [by apply (unchanged_outside_same_form _ s4 counted)|].
    by (eapply unchanged_outside_step; [|exact H6]; checked).
  - rewrite (one_step_formsets _ _ _ H6).
    rewrite <- (one_step_formsets _ _ _ H1), <- (one_step_formsets _ _ _ H2),
      <- (one_step_formsets _ _ _ H3), <- (one_step_formsets _ _ _ H4),
      <- (one_step_formsets _ _ _ H5).
    apply count_formsets_inv in Hcount as [_ Hall].
    eapply Forall2_impl; [exact Hall|]. cbn. tauto.
Qed.

Lemma clean_writes_checked_fields_only_witness :
  let base :=
    mkSuperForm
      (mkForm true ∅ question_fields
         (list_to_map
            [("question_text", PStr "Lunch?"); ("vote_start", PDateTime 20);
             ("vote_end", PDateTime 10)]) ∅)
      [("attachments", mkFormSet [] true (Some (mkValidation [] [])));
       ("q_followers", mkFormSet [] true None);
       ("choices", mkFormSet [empty_form; empty_form] true None)] in
  let self' :=
    mkSuperForm
      (mkForm true ∅ question_fields
         (list_to_map
            [("question_text", PStr "Lunch?"); ("vote_start", PDateTime 20)])
         (list_to_map
            [("vote_end", [QuestionForm.vote_end_too_early]);
             (NON_FIELD_ERRORS, [QuestionForm.please_correct 1])]))
      [("attachments", mkFormSet [] true (Some (mkValidation [] [])));
       ("q_followers", mkFormSet [] true (Some (mkValidation [] [])));
       ("choices",
        mkFormSet [empty_form; empty_form] true
          (Some (mkValidation [∅; ∅] [])))] in
  unchanged_outside checked_fields base self'
  ∧ Forall2
      (λ old new : string * FormSet,
         new.1 = old.1
         ∧ (is_Some (validation old.2) ∧ new.2 = old.2
            ∨ validation old.2 = None
              ∧ collect_form_errors old.1 old.2 = Ok new.2))
      (formsets base) (formsets self').
Proof.
  intros base self'.
  apply (clean_writes_checked_fields_only (mret tt) collect_form_errors
           base base self').
  - reflexivity.
  - vm_compute. reflexivity.
Defined.

Lemma app_self_nil {A} (l added : list A) : l = l ++ added → added = [].
Proof.
  intros Heq. apply (f_equal length) in Heq. rewrite length_app in Heq.
  destruct added; [done|]. cbn in Heq. lia.
Qed.

(** [clean] never drops an error, and it adds at most one error to any one
    field: the checks that write to [max_vote_count] exclude one another,
    because the first error takes the field out of the cleaned data. *)
Theorem clean_adds_at_most_one_error (super_clean : M SuperForm unit)
    (full_clean : string → FormSet → result FormSet)
    (self base self' : SuperForm) (key : string) :
  super_clean self = Ok (tt, base) →
  QuestionForm.clean super_clean full_clean self = Ok (tt, self') →
  ∃ added,
    field_errors (form self') key = field_errors (form base) key ++ added
    ∧ (length added ≤ 1)%nat.
Proof.
  intros Hbase Hclean.
  apply clean_chain in Hclean
    as (base' & s1 & s2 & mid & s3 & s4 & n & counted & Hb & H1 & H2 & H3 & H4
        & H5 & Hskip & _ & Hform & H6).
  rewrite Hbase in Hb. injection Hb as <-.
  (* an error from [check_max_vote_count] silences [check_total_vote_count] *)
  assert (Hexcl : s2 ≠ s1 → s4 = s3).
  { intros Hne. apply Hskip.
    destruct (one_step_errors _ _ _ "max_vote_count" H2)
      as (l & Hl & _ & Hnone).
    assert (Hdel : cleaned s2 "max_vote_count" = PNone).
    { destruct H2 as [->|(field & error & Hin & ->)]; [done|].
      apply list_elem_of_singleton in Hin as ->.
      unfold cleaned, dict_get. cbn. by rewrite lookup_delete_eq. }
    destruct (one_step_cleaned _ _ _ "max_vote_count" H3) as [E3|E3];
      destruct (one_step_cleaned _ _ _ "max_vote_count" H4) as [E4|E4];
      rewrite ?E4, ?E3, ?Hdel; done. }
  destruct (one_step_errors _ _ _ key H1) as (l1 & E1 & L1 & K1).
  destruct (one_step_errors _ _ _ key H2) as (l2 & E2 & L2 & K2).
  destruct (one_step_errors _ _ _ key H3) as (l3 & E3 & L3 & K3).
  destruct (one_step_errors _ _ _ key H4) as (l4 & E4 & L4 & K4).
  destruct (one_step_errors _ _ _ key H5) as (l5 & E5 & L5 & K5).
  destruct (one_step_errors _ _ _ key H6) as (l6 & E6 & L6 & K6).
  rewrite Hform in E6.
  exists (l1 ++ l2 ++ l3 ++ l4 ++ l5 ++ l6).
  split; [rewrite E6, E5, E4, E3, E2, E1, <- !app_assoc; done|].
  assert (Hl25 : l2 ≠ [] → l5 = []).
  { intros Hl2. rewrite Hexcl in E5.
    - by apply app_self_nil in E5.
    - intros ->. by apply app_self_nil in E2. }
  destruct l1 as [|e1 [|]]; cbn in L1; [| |lia];
    destruct l2 as [|e2 [|]]; cbn in L2; [| |lia| | |lia];
    destruct l3 as [|e3 [|]]; cbn in L3; try lia;
    destruct l4 as [|e4 [|]]; cbn in L4; try lia;
    destruct l5 as [|e5 [|]]; cbn in L5; try lia;
    destruct l6 as [|e6 [|]]; cbn in L6; try lia;
    cbn; try lia;
    repeat match goal with
           | H : ?l ≠ [] → _ |- _ =>
               first [ specialize (H ltac:(done)) | clear H ]
           end;
    repeat match goal with H : _ ∧ _ |- _ => destruct H end;
    repeat match goal with
           | H : _ ∈ [_] |- _ => apply list_elem_of_singleton in H
           end;
    unfold NON_FIELD_ERRORS in *; try congruence; try done.
Qed.

Lemma clean_adds_at_most_one_error_witness :
  let base :=
    question_form
      [("has_max_vote_count", PBool true); ("max_vote_count", PInt (-1));
       ("total_vote_count", PInt 5)] [] 2 in
  let self' :=
    with_collected
      (question_form
         [("has_max_vote_count", PBool true); ("total_vote_count", PInt 5)]
         [("max_vote_count", [QuestionForm.max_vote_count_positive]);
          (NON_FIELD_ERRORS, [QuestionForm.please_correct 1])] 2) in
  ∃ added,
    field_errors (form self') "max_vote_count"
    = field_errors (form base) "max_vote_count" ++ added
    ∧ (length added ≤ 1)%nat.
Proof.
  intros base self'.
  apply (clean_adds_at_most_one_error (mret tt) collect_form_errors
           base base self' "max_vote_count").
  - reflexivity.
  - vm_compute. reflexivity.
Defined.

(** ** [QuestionForm.clean]: when it raises *)

Lemma cleaned_unchanged (keys : list string) (self self' : SuperForm)
    (key : string) :
  unchanged_outside keys self self' → key ∉ keys →
  cleaned self' key = cleaned self key.
Proof.
  intros (_ & _ & _ & Hkeys) Hkey. unfold cleaned, dict_get.
  by destruct (Hkeys key Hkey) as [_ ->].
Qed.

Lemma check_max_vote_count_keeps (self : SuperForm) (n : Z) :
  cleaned self "max_vote_count" = PInt n → 0 ≤ n →
  QuestionForm.check_max_vote_count self = Ok (tt, self).
Proof.
  intros Hmax Hn.
  unfold QuestionForm.check_max_vote_count, QuestionForm.cleaned_get,
    py_lt, py_gt, cleaned in *.
  run. rewrite Hmax. cbn.
  destruct (0 >? n) eqn:Hneg; [|done]. apply Z.gtb_lt in Hneg. lia.
Qed.

Lemma check_max_vote_count_negative (self : SuperForm) (n : Z) :
  is_Some (fields (form self) !! "max_vote_count") →
  cleaned self "max_vote_count" = PInt n → n < 0 →
  QuestionForm.check_max_vote_count self
  = Ok (tt, set_form
              (record_error "max_vote_count"
                 QuestionForm.max_vote_count_positive (form self)) self).
Proof.
  intros Hfield Hmax Hn.
  unfold QuestionForm.check_max_vote_count, QuestionForm.cleaned_get,
    py_lt, py_gt, cleaned in *.
  run. rewrite Hmax. cbn.
  destruct (0 >? n) eqn:Hneg.
  - unfold QuestionForm.self_add_error. run. by rewrite add_error_known.
  - rewrite Z.gtb_ltb in Hneg. apply Z.ltb_ge in Hneg. lia.
Qed.

(** [check_total_vote_count] on typed cleaned data: it raises exactly when
    the flag is set, the maximum is a non-zero integer and the total is
    absent. *)
Lemma check_total_vote_count_outcome (self : SuperForm) :
  is_Some (fields (form self) !! "max_vote_count") →
  int_or_none (cleaned self "max_vote_count") →
  int_or_none (cleaned self "total_vote_count") →
  (truthy (cleaned self "has_max_vote_count") = true
   ∧ cleaned self "total_vote_count" = PNone
   ∧ truthy (cleaned self "max_vote_count") = true →
   QuestionForm.check_total_vote_count self = Raise TypeError)
  ∧ (¬ (truthy (cleaned self "has_max_vote_count") = true
        ∧ cleaned self "total_vote_count" = PNone
        ∧ truthy (cleaned self "max_vote_count") = true) →
     ∃ r self', QuestionForm.check_total_vote_count self = Ok (r, self')).
Proof.
  intros Hfield Tmax Ttotal.
  unfold QuestionForm.check_total_vote_count, QuestionForm.cleaned_get,
    cleaned in *.
  run.
  destruct (truthy (dict_get _ "has_max_vote_count" PNone)); cbn;
    [|split; [by intros (? & _)|by eexists _, _]].
  destruct (dict_get _ "max_vote_count" PNone) as [| |n| | |] eqn:Hmax;
    try done; cbn; [split; [by intros (_ & _ & ?)|by eexists _, _]|].
  destruct (n =? 0) eqn:Hz; cbn;
    [split; [by intros (_ & _ & ?)|by eexists _, _]|].
  destruct (dict_get _ "total_vote_count" PNone) as [| |t| | |] eqn:Htotal;
    try done; cbn.
  - split; [done|]. intros Hno. contradict Hno. done.
  - split; [by intros (_ & ? & _)|]. intros _.
    destruct (t >? n); [|by eexists _, _].
    unfold QuestionForm.self_add_error. run. rewrite add_error_known by done.
    by eexists _, _.
Qed.

(** On a question form whose cleaned values have their fields' types,
    the code of [clean] itself raises exactly when [has_max_vote_count] is
    set, [max_vote_count] is a positive integer and [total_vote_count] is
    absent (left out of the cleaned data by a field error), and then a
    [TypeError]. In every other case the four checks run to their end and
    leave the nested formsets alone; what is left is the count over the
    formsets, whose validation may raise: [clean] passes that exception
    on, and returns when there is none. *)
Theorem clean_raises_exactly (super_clean : M SuperForm unit)
    (full_clean : string → FormSet → result FormSet)
    (self base : SuperForm) (choices : FormSet) :
  super_clean self = Ok (tt, base) →
  is_Some (fields (form base) !! "vote_end") →
  is_Some (fields (form base) !! "max_vote_count") →
  is_Some (fields (form base) !! "min_selection") →
  is_Some (fields (form base) !! "max_selection") →
  odict_item (formsets base) "choices" = Ok choices →
  datetime_or_none (cleaned base "vote_start") →
  datetime_or_none (cleaned base "vote_end") →
  int_or_none (cleaned base "max_vote_count") →
  int_or_none (cleaned base "min_selection") →
  int_or_none (cleaned base "max_selection") →
  int_or_none (cleaned base "total_vote_count") →
  (truthy (cleaned base "has_max_vote_count") = true
   ∧ cleaned base "total_vote_count" = PNone
   ∧ (∃ n, cleaned base "max_vote_count" = PInt n ∧ 0 < n) →
   QuestionForm.clean super_clean full_clean self = Raise TypeError)
  ∧ (¬ (truthy (cleaned base "has_max_vote_count") = true
        ∧ cleaned base "total_vote_count" = PNone
        ∧ ∃ n, cleaned base "max_vote_count" = PInt n ∧ 0 < n) →
     ∃ checked,
       QuestionForm.checks super_clean self = Ok (tt, checked)
       ∧ formsets checked = formsets base
       ∧ match QuestionForm.count_formsets full_clean (formsets base)
                 (Z.of_nat (size (errors (form checked)))) with
         | Ok _ =>
             ∃ self',
               QuestionForm.clean super_clean full_clean self = Ok (tt, self')
         | Raise e =>
             QuestionForm.clean super_clean full_clean self = Raise e
         end).
Proof.
  intros Hbase Hve Hmvc Hmin Hmax Hchoices Tvs Tve Tmvc Tmin Tmax Ttotal.
  destruct (check_vote_end_runs base) as (s1 & R1 & A1); [done..|].
  pose proof (check_vote_end_step _ _ _ R1) as S1.
  pose proof (one_step_frame _ _ _ S1) as (F1 & _ & _ & G1 & K1).
  destruct (check_max_vote_count_runs s1) as (s2 & R2 & A2).
  { by rewrite F1. }
  { by apply (typed_after base). }
  pose proof (check_max_vote_count_step _ _ _ R2) as S2.
  pose proof (one_step_frame _ _ _ S2) as (F2 & _ & _ & G2 & K2).
  pose proof (after_checks_trans _ _ _ A1 A2) as A12.
  destruct (check_selection_bounds_runs s2 choices) as (s3 & R3 & A3).
  { by rewrite F2, F1. }
  { by rewrite F2, F1. }
  { by apply (typed_after base). }
  { by apply (typed_after base). }
  { by rewrite G2, G1. }
  pose proof (after_checks_trans _ _ _ A12 A3) as A123.
  destruct (check_selection_bounds_step _ _ _ R3) as (mid & S3a & S3b).
  pose proof (one_step_frame _ _ _ S3a) as (F3a & _ & _ & G3a & K3a).
  pose proof (one_step_frame _ _ _ S3b) as (F3b & _ & _ & G3b & K3b).
  assert (U1 : unchanged_outside ["vote_end"] base s1)
    by (by eapply unchanged_outside_step).
  assert (U2 : unchanged_outside ["max_vote_count"] s1 s2)
    by (by eapply unchanged_outside_step).
  assert (U3 : unchanged_outside ["max_selection"; "min_selection"] s2 s3).
  { eapply unchanged_outside_trans.
    - eapply unchanged_outside_step; [|exact S3a].
      intros x Hx. apply list_elem_of_singleton in Hx as ->. in_list.
    - eapply unchanged_outside_step; [|exact S3b].
      intros x Hx. apply list_elem_of_singleton in Hx as ->. in_list. }
  assert (Hhas : cleaned s3 "has_max_vote_count"
                 = cleaned base "has_max_vote_count").
  { rewrite (cleaned_unchanged _ _ _ _ U3), (cleaned_unchanged _ _ _ _ U2),
      (cleaned_unchanged _ _ _ _ U1); [done|not_in_list..]. }
  assert (Htotal : cleaned s3 "total_vote_count"
                   = cleaned base "total_vote_count").
  { rewrite (cleaned_unchanged _ _ _ _ U3), (cleaned_unchanged _ _ _ _ U2),
      (cleaned_unchanged _ _ _ _ U1); [done|not_in_list..]. }
  assert (Hmax3 : cleaned s3 "max_vote_count" = cleaned s2 "max_vote_count")
    by (rewrite (cleaned_unchanged _ _ _ _ U3); [done|not_in_list]).
  assert (Hmax1 : cleaned s1 "max_vote_count" = cleaned base "max_vote_count")
    by (rewrite (cleaned_unchanged _ _ _ _ U1); [done|not_in_list]).
  destruct (check_total_vote_count_outcome s3) as [Oraise Ook].
  { by rewrite F3b, F3a, F2, F1. }
  { by apply (typed_after base). }
  { by rewrite Htotal. }
  rewrite Hhas, Htotal, Hmax3 in Oraise, Ook.
  assert (Hchecks : ∀ out,
    QuestionForm.check_total_vote_count s3 = out →
    QuestionForm.checks super_clean self
    = match out with Ok (_, s4) => Ok (tt, s4) | Raise e => Raise e end).
  { intros out <-. unfold QuestionForm.checks. run.
    rewrite Hbase. cbn. rewrite R1. cbn. rewrite R2. cbn. rewrite R3. cbn.
    by destruct (QuestionForm.check_total_vote_count s3) as [[? ?]|]. }
  assert (Hrun : ∀ out,
    QuestionForm.checks super_clean self = out →
    QuestionForm.clean super_clean full_clean self
    = match out with
      | Ok (_, s4) =>
          match QuestionForm.count_formsets full_clean (formsets s4)
                  (Z.of_nat (size (errors (form s4)))) with
          | Ok (n, counted) =>
              (if n >? 0
               then QuestionForm.self_add_error NON_FIELD_ERRORS
                      (QuestionForm.please_correct n)
               else λ s, Ok (tt, s)) (mkSuperForm (form s4) counted)
          | Raise e => Raise e
          end
      | Raise e => Raise e
      end).
  { intros out <-. unfold QuestionForm.clean, QuestionForm.error_count. run.
    destruct (QuestionForm.checks super_clean self) as [[[] s4]|]; [|done].
    cbn. by destruct (QuestionForm.count_formsets _ _ _) as [[? ?]|]. }
  split.
  - intros (Hh & Ht & n & Hn & Hpos).
    assert (Hm : truthy (cleaned s2 "max_vote_count") = true).
    { assert (s2 = s1) as ->.
      { rewrite (check_max_vote_count_keeps s1 n) in R2;
          [by simplify_eq| by rewrite Hmax1 | lia]. }
      rewrite Hmax1, Hn. cbn. apply negb_true_iff, Z.eqb_neq. lia. }
    rewrite (Hrun _ (Hchecks _ (Oraise (conj Hh (conj Ht Hm))))). done.
  - intros Hno. destruct Ook as (r & s4 & R4).
    + intros (Hh & Ht & Hm). apply Hno. split_and!; [done..|].
      destruct (cleaned base "max_vote_count") as [| |n| | |] eqn:Hn; try done.
      * destruct (one_step_cleaned _ _ _ "max_vote_count" S2) as [E|E];
          rewrite E in Hm; [by rewrite Hmax1 in Hm|done].
      * exists n. split; [done|].
        destruct (decide (0 < n)) as [|Hle]; [done|].
        destruct (decide (n = 0)) as [->|Hnz].
        -- destruct (one_step_cleaned _ _ _ "max_vote_count" S2) as [E|E];
             rewrite E in Hm; [by rewrite Hmax1 in Hm|done].
        -- rewrite (check_max_vote_count_negative s1 n) in R2;
             [|by rewrite F1|by rewrite Hmax1|lia].
           simplify_eq. unfold cleaned, dict_get in Hm. cbn in Hm.
           by rewrite lookup_delete_eq in Hm.
    + pose proof (check_total_vote_count_step _ _ _ R4) as [S4 _].
      assert (Hsets : formsets s4 = formsets base).
      { rewrite (one_step_formsets _ _ _ S4). by rewrite G3b, G3a, G2, G1. }
      exists s4. split; [by rewrite (Hchecks _ R4)|]. split; [done|].
      rewrite (Hrun _ (Hchecks _ R4)), Hsets.
      destruct (QuestionForm.count_formsets full_clean (formsets base) _)
        as [[n counted]|]; [|done].
      destruct (n >? 0); [|by eexists].
      unfold QuestionForm.self_add_error. run. rewrite add_error_non_field.
      by eexists.
Qed.

Lemma clean_raises_exactly_witness :
  QuestionForm.clean (mret tt) collect_form_errors
    (question_form
       [("has_max_vote_count", PBool true); ("max_vote_count", PInt 5)] [] 2)
  = Raise TypeError.
Proof.
  apply (clean_raises_exactly (mret tt) collect_form_errors _
           (question_form
              [("has_max_vote_count", PBool true); ("max_vote_count", PInt 5)]
              [] 2)
           (mkFormSet (replicate 2 empty_form) true None)).
  - reflexivity.
  - eexists. vm_compute. reflexivity.
  - eexists. vm_compute. reflexivity.
  - eexists. vm_compute. reflexivity.
  - eexists. vm_compute. reflexivity.
  - vm_compute. reflexivity.
  - vm_compute. exact I.
  - vm_compute. exact I.
  - vm_compute. exact I.
  - vm_compute. exact I.
  - vm_compute. exact I.
  - vm_compute. exact I.
  - split_and!; [vm_compute; reflexivity..|].
    exists 5. split; [vm_compute; reflexivity|lia].
Defined.

Lemma check_total_vote_count_nonzero_witness :
  let self :=
    question_form
      [("has_max_vote_count", PBool true); ("max_vote_count", PInt 3);
       ("total_vote_count", PInt 5)] [] 2 in
  QuestionForm.check_total_vote_count self
  = Ok (PNone,
        if 5 >? 3
        then set_form
               (record_error "max_vote_count"
                  QuestionForm.total_vote_count_too_big (form self)) self
        else self).
Proof.
  intros self. apply (check_total_vote_count_nonzero self 5 3).
  - eexists. vm_compute. reflexivity.
  - vm_compute. reflexivity.
  - vm_compute. reflexivity.
  - vm_compute. reflexivity.
  - lia.
Defined.

(** ** [FormSetForm.full_clean]: validity and repetition *)

(** After [full_clean] the form has an empty error dict, which is what
    makes a bound form valid, exactly when base validation left errors under
    no field but the parent instance field, and no empty entry under that
    one: the truth test on [_errors.get] leaves an empty error list where
    it is. *)
Theorem full_clean_valid_iff (parent_instance_field : string)
    (super_full_clean : Form → Form) (self : Form) :
  errors (FormSetForm.full_clean parent_instance_field super_full_clean self)
  = ∅
  ↔ (∀ name, name ≠ parent_instance_field →
       errors (super_full_clean self) !! name = None)
    ∧ errors (super_full_clean self) !! parent_instance_field ≠ Some [].
Proof.
  unfold FormSetForm.full_clean, FormSetForm.has_field_errors.
  destruct (errors (super_full_clean self) !! parent_instance_field)
    as [[|e l]|] eqn:Hlook; cbn.
  - split.
    + intros Hempty. rewrite Hempty, lookup_empty in Hlook. done.
    + by intros [_ ?].
  - split.
    + intros Hempty. split; [|done]. intros name Hne.
      rewrite <- (lookup_delete_ne (errors (super_full_clean self))
                    parent_instance_field name) by done.
      by rewrite Hempty, lookup_empty.
    + intros [Hother _]. apply map_eq. intros name. rewrite lookup_empty.
      destruct (decide (parent_instance_field = name)) as [<-|Hne].
      * apply lookup_delete_eq.
      * rewrite lookup_delete_ne by done. by apply Hother.
  - split.
    + intros Hempty. split; [|done]. intros name _.
      by rewrite Hempty, lookup_empty.
    + intros [Hother _]. apply map_eq. intros name. rewrite lookup_empty.
      destruct (decide (parent_instance_field = name)) as [<-|Hne];
        [done|by apply Hother].
Qed.

(** Suppressing twice is suppressing once: run on its own result,
    [full_clean] changes nothing more. *)
Theorem full_clean_idempotent (parent_instance_field : string)
    (super_full_clean : Form → Form) (self : Form) :
  FormSetForm.full_clean parent_instance_field
    (FormSetForm.full_clean parent_instance_field super_full_clean) self
  = FormSetForm.full_clean parent_instance_field super_full_clean self.
Proof.
  unfold FormSetForm.full_clean at 1.
  assert (Hnone : FormSetForm.has_field_errors parent_instance_field
            (FormSetForm.full_clean parent_instance_field super_full_clean self)
          = false).
  { unfold FormSetForm.full_clean, FormSetForm.has_field_errors.
    destruct (errors (super_full_clean self) !! parent_instance_field)
      as [[|e l]|] eqn:Hlook; cbn.
    - by rewrite Hlook.
    - by rewrite lookup_delete_eq.
    - by rewrite Hlook. }
  by rewrite Hnone.
Qed.

(** ** [MaxVoteCountForm.__init__]: failure and frame *)

(** [__init__] fails exactly when the form lacks one of the two fields,
    and then with a [KeyError]. When it succeeds it has touched nothing but
    the widget attributes of those two fields: binding, initial data,
    cleaned data, errors and every other field are unchanged, and the
    [has_max_vote_count] widget has gained [data-reload-form = True]. *)
Theorem init_fails_or_keeps_frame (boundfield_value : Form → string → pyval)
    (self : Form) :
  (MaxVoteCountForm.__init__ boundfield_value self = Raise KeyError
   ↔ fields self !! "has_max_vote_count" = None
     ∨ fields self !! "max_vote_count" = None)
  ∧ (∀ e, MaxVoteCountForm.__init__ boundfield_value self = Raise e →
          e = KeyError)
  ∧ (∀ self', MaxVoteCountForm.__init__ boundfield_value self = Ok self' →
       is_bound self' = is_bound self
       ∧ initial self' = initial self
       ∧ cleaned_data self' = cleaned_data self
       ∧ errors self' = errors self
       ∧ (∀ name, name ≠ "has_max_vote_count" → name ≠ "max_vote_count" →
            fields self' !! name = fields self !! name)
       ∧ ∃ has_fld has_fld',
           fields self !! "has_max_vote_count" = Some has_fld
           ∧ fields self' !! "has_max_vote_count" = Some has_fld'
           ∧ widget_attrs has_fld'
             = <["data-reload-form" := PBool true]> (widget_attrs has_fld)).
Proof.
  unfold MaxVoteCountForm.__init__, FieldDataMixin.get_field_value, dict_item.
  destruct (fields self !! "has_max_vote_count") as [has_fld|] eqn:Hhas; cbn;
    [|split_and!; [split; [by left|done]|by intros e [= <-]|done]].
  destruct (fields self !! "max_vote_count") as [max_fld|] eqn:Hmax; cbn;
    [|split_and!; [split; [by right|done]|by intros e [= <-]|done]].
  set (toggle := if is_bound self
                 then boundfield_value self "has_max_vote_count"
                 else dict_get (initial self) "has_max_vote_count" PNone).
  assert (Hread : (if is_bound self
                   then Ok (boundfield_value self "has_max_vote_count")
                   else Ok (dict_get (initial self) "has_max_vote_count" PNone))
                  = Ok toggle) by (unfold toggle; by destruct (is_bound self)).
  rewrite Hread. cbn.
  split_and!.
  - split; [by destruct (truthy toggle)|by intros [?|?]].
  - intros e. by destruct (truthy toggle).
  - intros self' Hok.
    assert (Hframe : ∀ updates,
      let out :=
        MaxVoteCountForm.widget_attrs_update "max_vote_count" updates
          (MaxVoteCountForm.widget_attrs_update "has_max_vote_count"
             [("data-reload-form", PBool true)] self) in
      is_bound out = is_bound self
      ∧ initial out = initial self
      ∧ cleaned_data out = cleaned_data self
      ∧ errors out = errors self
      ∧ (∀ name, name ≠ "has_max_vote_count" → name ≠ "max_vote_count" →
           fields out !! name = fields self !! name)
      ∧ ∃ has_fld0 has_fld',
          Some has_fld = Some has_fld0
          ∧ fields out !! "has_max_vote_count" = Some has_fld'
          ∧ widget_attrs has_fld'
            = <["data-reload-form" := PBool true]> (widget_attrs has_fld0)).
    { intros updates. cbn. split_and!; try done.
      - intros name Hn1 Hn2. by rewrite !lookup_alter_ne.
      - eexists has_fld, _. split; [done|].
        rewrite lookup_alter_ne, lookup_alter_eq, Hhas by done.
        split; [reflexivity|done]. }
    destruct (truthy toggle); injection Hok as <-; apply Hframe.
Qed.

(** ** [QuestionFollowersFormSet.clean]: one call, and missing followers *)

(** Whatever the formset's [add_error] does, [clean] after base validation
    is exactly one call of it, on the formset as base validation left it,
    when two forms that are not marked for deletion have the same follower,
    and returns that formset untouched otherwise: the loop never calls it
    twice. *)
Theorem followers_clean_one_call
    (super_clean : FormSet → result FormSet)
    (self_add_error : string → ValidationError → FormSet → result FormSet)
    (self base : FormSet) :
  super_clean self = Ok base →
  (same_value_twice (followers_of base) →
   QuestionFollowersFormSet.clean super_clean self_add_error self
   = self_add_error NON_FIELD_ERRORS
       QuestionFollowersFormSet.duplicate_values base)
  ∧ (¬ same_value_twice (followers_of base) →
     QuestionFollowersFormSet.clean super_clean self_add_error self = Ok base).
Proof. apply followers_clean_cases. Qed.

Lemma followers_clean_one_call_witness :
  let base :=
    mkFormSet
      [follower_form (PModel 7) false; follower_form (PModel 8) false;
       follower_form (PModel 7) false; follower_form (PModel 7) false]
      true (Some (mkValidation [∅; ∅; ∅; ∅] [])) in
  (same_value_twice (followers_of base) →
   QuestionFollowersFormSet.clean Ok
     QuestionFollowersFormSet.add_non_field_error base
   = QuestionFollowersFormSet.add_non_field_error NON_FIELD_ERRORS
       QuestionFollowersFormSet.duplicate_values base)
  ∧ (¬ same_value_twice (followers_of base) →
     QuestionFollowersFormSet.clean Ok
       QuestionFollowersFormSet.add_non_field_error base = Ok base).
Proof.
  intros base.
  apply (followers_clean_one_call Ok
           QuestionFollowersFormSet.add_non_field_error base base).
  reflexivity.
Defined.

(** Forms without a cleaned follower count as having the same follower:
    [cleaned_data.get('follower')] is [None] for each, and [None] is found
    in the list built so far. Two such forms that are not marked for
    deletion send [clean] down the duplicate path. *)
Theorem followers_clean_missing_followers
    (super_clean : FormSet → result FormSet)
    (self_add_error : string → ValidationError → FormSet → result FormSet)
    (self base : FormSet) (i j : nat) (form_i form_j : Form) :
  super_clean self = Ok base →
  (i < j)%nat →
  counted_forms base !! i = Some form_i →
  counted_forms base !! j = Some form_j →
  cleaned_data form_i !! "follower" = None →
  cleaned_data form_j !! "follower" = None →
  QuestionFollowersFormSet.clean super_clean self_add_error self
  = self_add_error NON_FIELD_ERRORS
      QuestionFollowersFormSet.duplicate_values base.
Proof.
  intros Hbase Hlt Hi Hj Hfi Hfj.
  apply (followers_clean_cases super_clean self_add_error self base Hbase).
  exists i, j, PNone, PNone. unfold followers_of.
  rewrite !list_lookup_fmap, Hi, Hj. cbn. unfold dict_get.
  rewrite Hfi, Hfj. done.
Qed.

Lemma followers_clean_missing_followers_witness :
  let blank := mkForm true ∅ ∅ ∅ {[ "follower" := [QuestionForm.max_vote_count_required] ]} in
  let base :=
    mkFormSet [blank; blank] true
      (Some (mkValidation [errors blank; errors blank] [])) in
  QuestionFollowersFormSet.clean Ok
    QuestionFollowersFormSet.formset_add_error base
  = QuestionFollowersFormSet.formset_add_error NON_FIELD_ERRORS
      QuestionFollowersFormSet.duplicate_values base.
Proof.
  intros blank base.
  apply (followers_clean_missing_followers Ok
           QuestionFollowersFormSet.formset_add_error base base 0 1 blank blank);
    first [ reflexivity | lia ].
Defined.

(** ** [FileS3UploadField.clean]: which part of the URL is returned *)

(** Both splits are at the first occurrence. Whenever the cleaned URL can
    be read as the bucket name, later the destination directory, then
    [rest], the returned name ends with [rest]; it is longer than [rest]
    when the directory already occurs earlier after the bucket name. *)
Theorem s3_clean_first_occurrence (bucket : string)
    (destinations : gmap string (gmap string string)) (dest : string)
    (super_clean : pyval → result string) (value : pyval)
    (url key file_dir : string) (destination : gmap string string)
    (before between rest : string) :
  super_clean value = Ok url → url ≠ "" →
  destinations !! dest = Some destination → destination !! "key" = Some key →
  FileS3UploadField.with_slash key = Ok file_dir → bucket ≠ "" →
  url = before +:+ bucket +:+ between +:+ file_dir +:+ rest →
  ∃ earlier,
    FileS3UploadField.clean bucket destinations dest super_clean value
    = Ok (earlier +:+ rest).
Proof.
  intros Hurl Hne Hdest Hkey Hslash Hbucket Heq.
  rewrite (s3_clean_configured bucket destinations dest super_clean value
             url key file_dir destination) by done.
  destruct (split_once_first bucket url before
              (between +:+ file_dir +:+ rest) Heq)
    as (b1 & a1 & m1 & -> & ->).
  destruct (split_once_first file_dir (m1 +:+ between +:+ file_dir +:+ rest)
              (m1 +:+ between) rest) as (b2 & a2 & m2 & -> & ->).
  { by rewrite !string_app_assoc. }
  by exists m2.
Qed.

Lemma s3_clean_first_occurrence_witness :
  let destinations : gmap string (gmap string string) :=
    {[ "document" := {[ "key" := "uploads" ]} ]} in
  let url := "https://s3.example.com/demo/uploads/a/uploads/b.pdf" in
  ∃ earlier,
    FileS3UploadField.clean "demo" destinations "document"
      (λ _, Ok url) (PStr url)
    = Ok (earlier +:+ "b.pdf").
Proof.
  intros destinations url.
  apply (s3_clean_first_occurrence "demo" destinations "document"
           (λ _, Ok url) (PStr url) url "uploads" "uploads/"
           {[ "key" := "uploads" ]} "https://s3.example.com/" "/uploads/a/" "b.pdf");
    first [ reflexivity | discriminate ].
Defined.

Example s3_clean_repeated_directory :
  FileS3UploadField.clean "demo" {[ "document" := {[ "key" := "uploads" ]} ]}
    "document" (λ _, Ok "https://s3.example.com/demo/uploads/a/uploads/b.pdf")
    (PStr "https://s3.example.com/demo/uploads/a/uploads/b.pdf")
  = Ok "a/uploads/b.pdf".
Proof. vm_compute. reflexivity. Qed.

Lemma string_last_snoc (s : string) (ch : Ascii.ascii) :
  string_last (s +:+ String ch "") = Ok ch.
Proof.
  induction s as [|c s IH]; [done|]. str. cbn [string_last].
  destruct s as [|c' s]; [done|]. str. by str.
Qed.

Lemma with_slash_idem (key file_dir : string) :
  FileS3UploadField.with_slash key = Ok file_dir →
  FileS3UploadField.with_slash file_dir = Ok file_dir.
Proof.
  unfold FileS3UploadField.with_slash.
  destruct (string_last key) as [last|] eqn:Hlast; [|done]. cbn.
  destruct (Ascii.eqb last FileS3UploadField.slash) eqn:Hslash; cbn;
    intros [= <-].
  - by rewrite Hlast; cbn; rewrite Hslash.
  - change "/" with (String FileS3UploadField.slash "").
    by rewrite string_last_snoc.
Qed.

(** The closing slash of the configured directory makes no difference:
    a destination whose [key] is written with the slash gives the same
    result, on every value, as one whose [key] lacks it. *)
Theorem s3_clean_closing_slash (bucket : string)
    (destinations destinations' : gmap string (gmap string string))
    (dest : string) (super_clean : pyval → result string) (value : pyval)
    (destination destination' : gmap string string) (key file_dir : string) :
  destinations !! dest = Some destination → destination !! "key" = Some key →
  FileS3UploadField.with_slash key = Ok file_dir →
  destinations' !! dest = Some destination' →
  destination' !! "key" = Some file_dir →
  FileS3UploadField.clean bucket destinations' dest super_clean value
  = FileS3UploadField.clean bucket destinations dest super_clean value.
Proof.
  intros Hdest Hkey Hslash Hdest' Hkey'.
  unfold FileS3UploadField.clean, dict_item.
  destruct (super_clean value) as [url|e]; [|done]. cbn.
  destruct (negb (String.eqb url "")); [|done].
  rewrite Hdest, Hdest'. cbn. rewrite Hkey, Hkey'. cbn.
  by rewrite (with_slash_idem key file_dir Hslash), Hslash.
Qed.

Lemma s3_clean_closing_slash_witness :
  let url := "https://s3.example.com/demo/uploads/b.pdf" in
  FileS3UploadField.clean "demo" {[ "document" := {[ "key" := "uploads/" ]} ]}
    "document" (λ _, Ok url) (PStr url)
  = FileS3UploadField.clean "demo" {[ "document" := {[ "key" := "uploads" ]} ]}
      "document" (λ _, Ok url) (PStr url).
Proof.
  intros url.
  apply (s3_clean_closing_slash "demo"
           {[ "document" := {[ "key" := "uploads" ]} ]}
           {[ "document" := {[ "key" := "uploads/" ]} ]}
           "document" (λ _, Ok url) (PStr url)
           {[ "key" := "uploads" ]} {[ "key" := "uploads/" ]}
           "uploads" "uploads/");
    reflexivity.
Defined.

(** What [clean] does when it cannot work: an error of URL cleaning is
    passed on; on a non-empty cleaned URL a destination that is not
    configured, or has no [key], raises [KeyError], an empty [key] raises
    [IndexError] (at [file_dir[-1]]), and an empty bucket name raises
    [ValueError] (the empty separator of [split]). *)
Theorem s3_clean_misconfigured (bucket : string)
    (destinations : gmap string (gmap string string)) (dest : string)
    (super_clean : pyval → result string) (value : pyval) :
  (∀ e, super_clean value = Raise e →
        FileS3UploadField.clean bucket destinations dest super_clean value
        = Raise e)
  ∧ (∀ url, super_clean value = Ok url → url ≠ "" →
       (destinations !! dest = None →
        FileS3UploadField.clean bucket destinations dest super_clean value
        = Raise KeyError)
       ∧ (∀ destination, destinations !! dest = Some destination →
            (destination !! "key" = None →
             FileS3UploadField.clean bucket destinations dest super_clean value
             = Raise KeyError)
            ∧ (destination !! "key" = Some "" →
               FileS3UploadField.clean bucket destinations dest super_clean
                 value
               = Raise IndexError)
            ∧ (∀ key, destination !! "key" = Some key → key ≠ "" →
                 bucket = "" →
                 FileS3UploadField.clean bucket destinations dest super_clean
                   value
                 = Raise ValueError))).
Proof.
  split.
  { intros e He. unfold FileS3UploadField.clean. by rewrite He. }
  intros url Hurl Hne. unfold FileS3UploadField.clean, dict_item.
  rewrite Hurl. cbn. rewrite (proj2 (String.eqb_neq url "")) by done. cbn.
  split; [by intros ->|].
  intros destination ->. cbn. split; [by intros ->|]. split; [by intros ->|].
  intros key -> Hkey ->. cbn.
  destruct (FileS3UploadField.with_slash key) as [file_dir|e] eqn:Hslash.
  - done.
  - unfold FileS3UploadField.with_slash in Hslash.
    destruct key as [|ch key]; [done|].
    assert (Hlast : ∀ s c, ∃ last, string_last (String c s) = Ok last).
    { induction s as [|c' s IH]; intros c; [by exists c|].
      destruct (IH c') as [last Hl]. exists last. by rewrite <- Hl. }
    destruct (Hlast key ch) as [last Hl]. rewrite Hl in Hslash. cbn in Hslash.
    by destruct (negb _).
Qed.

(** ** [UserFilter.filter_count_gte]: thresholds *)

Section filter_thresholds.
Import UserFilter.

(** A threshold of zero or less filters nothing: every row of the
    queryset comes back, in order, with its count. *)
Theorem filter_count_gte_no_threshold (relations : gmap string (list (Z * Z)))
    (queryset : list User) (name : string) (value : Q) (rel : list (Z * Z)) :
  relations !! name = Some rel →
  NoDup (pk <$> queryset) →
  (value <= 0)%Q →
  filter_count_gte relations queryset name value
  = Ok ((λ u, (u, related_count rel u)) <$> queryset).
Proof.
  intros Hrel Hnodup Hvalue. apply NoDup_fmap_1 in Hnodup.
  rewrite (filter_count_gte_rows _ _ _ _ rel) by done. do 2 f_equal.
  clear Hnodup. induction queryset as [|u qs IH]; [done|].
  rewrite filter_cons_True; [by f_equal|].
  pose proof (py_int_mono value 0 Hvalue).
  pose proof (related_count_nonneg rel u).
  change (py_int 0) with 0 in *. lia.
Qed.

Lemma filter_count_gte_no_threshold_witness :
  filter_count_gte {[ "user_followed" := [(1, 2); (1, 3); (3, 1)] ]}
    [mkUser 1 10 "a"; mkUser 2 20 "b"; mkUser 3 30 "b"] "user_followed" (-1 # 2)
  = Ok ((λ u, (u, related_count [(1, 2); (1, 3); (3, 1)] u))
          <$> [mkUser 1 10 "a"; mkUser 2 20 "b"; mkUser 3 30 "b"]).
Proof.
  apply (filter_count_gte_no_threshold
           {[ "user_followed" := [(1, 2); (1, 3); (3, 1)] ]}
           [mkUser 1 10 "a"; mkUser 2 20 "b"; mkUser 3 30 "b"]
           "user_followed" (-1 # 2) [(1, 2); (1, 3); (3, 1)]).
  - vm_compute. reflexivity.
  - apply (bool_decide_unpack _). vm_compute. exact I.
  - vm_compute. discriminate.
Defined.

(** Raising the threshold only removes rows: the result for the larger
    threshold is the result for the smaller one with some rows left out,
    the others in the same order and with the same counts. *)
Theorem filter_count_gte_monotone (relations : gmap string (list (Z * Z)))
    (queryset : list User) (name : string) (value value' : Q)
    (rel : list (Z * Z)) :
  relations !! name = Some rel →
  NoDup (pk <$> queryset) →
  (value <= value')%Q →
  ∃ rows rows',
    filter_count_gte relations queryset name value = Ok rows
    ∧ filter_count_gte relations queryset name value' = Ok rows'
    ∧ sublist rows' rows.
Proof.
  intros Hrel Hnodup Hle. apply NoDup_fmap_1 in Hnodup.
  rewrite !(filter_count_gte_rows _ _ _ _ rel) by done.
  eexists _, _. split; [reflexivity|]. split; [reflexivity|].
  apply fmap_sublist. clear Hnodup.
  pose proof (py_int_mono value value' Hle) as Hint.
  induction queryset as [|u qs IH]; [done|].
  rewrite !filter_cons.
  destruct (decide (py_int value' ≤ related_count rel u)) as [Hu'|Hu'].
  - rewrite decide_True by lia. by apply sublist_skip.
  - destruct (decide (py_int value ≤ related_count rel u));
      [by apply sublist_cons|done].
Qed.

Lemma filter_count_gte_monotone_witness :
  ∃ rows rows',
    filter_count_gte {[ "user_followed" := [(1, 2); (1, 3); (3, 1)] ]}
      [mkUser 1 10 "a"; mkUser 2 20 "b"; mkUser 3 30 "b"] "user_followed" 1
    = Ok rows
    ∧ filter_count_gte {[ "user_followed" := [(1, 2); (1, 3); (3, 1)] ]}
        [mkUser 1 10 "a"; mkUser 2 20 "b"; mkUser 3 30 "b"] "user_followed"
        (3 # 2)
      = Ok rows'
    ∧ sublist rows' rows.
Proof.
  apply (filter_count_gte_monotone
           {[ "user_followed" := [(1, 2); (1, 3); (3, 1)] ]}
           [mkUser 1 10 "a"; mkUser 2 20 "b"; mkUser 3 30 "b"]
           "user_followed" 1 (3 # 2) [(1, 2); (1, 3); (3, 1)]).
  - vm_compute. reflexivity.
  - apply (bool_decide_unpack _). vm_compute. exact I.
  - vm_compute. discriminate.
Defined.

End filter_thresholds.

(** ** [QuestionDetailView.get_object_data]: the rows of the detail page *)

Section detail_rows.
Import QuestionDetailView.

Lemma show_items_rows (thumbnail_name : string)
    (items rows : list (string * shown)) :
  show_items thumbnail_name items = Ok rows
  ↔ Forall2 (λ item row, show_item thumbnail_name item = Ok row) items rows.
Proof.
  revert rows. induction items as [|item items IH]; intros rows; cbn.
  - split; [by intros [= <-]; constructor|by inversion 1].
  - destruct (show_item thumbnail_name item) as [row|e] eqn:Hrow; cbn.
    + destruct (show_items thumbnail_name items) as [rows'|e] eqn:Hrows; cbn.
      * split.
        -- intros [= <-]. constructor; [done|]. by apply IH.
        -- inversion 1 as [|? row' ? rows'' Hrow' Hrest]; subst.
           apply IH in Hrest. congruence.
      * split; [done|]. inversion 1 as [|? row' ? rows'' Hrow' Hrest]; subst.
        apply IH in Hrest. done.
    + split; [done|]. inversion 1; congruence.
Qed.

Lemma show_item_label (thumbnail_name : string) (item row : string * shown) :
  show_item thumbnail_name item = Ok row → row.1 = item.1.
Proof.
  unfold show_item. destruct (String.eqb _ _); [|by intros [= <-]].
  destruct (shown_truthy _); [|by intros [= <-]].
  destruct item.2; by intros [= <-].
Qed.

(** When every truthy value that comes under the thumbnail's label is a
    file, [get_object_data] yields one row for each row of the base view,
    in order and under the same label, and then a last row labelled
    [Attachments], with or without attachments. Rows under other labels
    are passed on as they are; under the thumbnail's label a file with a
    name becomes the image markup and an empty value becomes the text
    [None]. *)
Theorem get_object_data_rows (thumbnail_name : string)
    (get_html_list : list shown → shown)
    (items : list (string * shown)) (attachments : list File) :
  (∀ value, (thumbnail_name, value) ∈ items → shown_truthy value = true →
            ∃ file, value = FieldFile file) →
  ∃ rows,
    get_object_data thumbnail_name get_html_list items attachments = Ok rows
    ∧ fst <$> rows = (fst <$> items) ++ ["Attachments"]
    ∧ (∀ i item, items !! i = Some item → item.1 ≠ thumbnail_name →
                 rows !! i = Some item)
    ∧ (∀ i file, items !! i = Some (thumbnail_name, FieldFile file) →
                 file_name file ≠ "" →
                 rows !! i = Some (thumbnail_name, Markup (image_html file)))
    ∧ (∀ i value, items !! i = Some (thumbnail_name, value) →
                  shown_truthy value = false →
                  rows !! i = Some (thumbnail_name, Plain (PStr "None")))
    ∧ (attachments = [] →
       rows !! length items = Some ("Attachments", Plain (PStr "None"))).
Proof.
  intros Hfiles.
  assert (Hshown : ∃ shown_rows, show_items thumbnail_name items = Ok shown_rows).
  { induction items as [|[label value] items IH]; [by exists []|]. cbn.
    destruct IH as [rest ->].
    { intros v Hin. apply Hfiles. by right. }
    assert (∃ row, show_item thumbnail_name (label, value) = Ok row)
      as [row ->]; [|by eexists].
    unfold show_item. cbn. destruct (String.eqb label thumbnail_name) eqn:Hl;
      [|by eexists].
    apply String.eqb_eq in Hl as ->.
    destruct (shown_truthy value) eqn:Ht; [|by eexists].
    destruct (Hfiles value) as [file ->]; [by left|done|by eexists]. }
  destruct Hshown as [shown_rows Hrows].
  exists (shown_rows ++ [attachments_row get_html_list attachments]).
  unfold get_object_data. rewrite Hrows. cbn. split; [done|].
  apply show_items_rows in Hrows.
  assert (Hlen : length shown_rows = length items)
    by (symmetry; by eapply Forall2_length).
  assert (Hat : ∀ i item, items !! i = Some item →
            ∃ row, shown_rows !! i = Some row
                   ∧ show_item thumbnail_name item = Ok row).
  { intros i item Hi.
    destruct (Forall2_lookup_l _ _ _ _ _ Hrows Hi) as (row & ? & ?).
    by exists row. }
  split; [|split; [|split; [|split]]].
  - rewrite fmap_app. f_equal.
    + clear Hlen Hat. induction Hrows as [|item row items' rows' Hrow _ IH];
        [done|]. cbn. f_equal; [by eapply show_item_label|]. apply IH.
      intros v Hin. apply Hfiles. by right.
    + unfold attachments_row. by destruct (0 <? _)%nat.
  - intros i item Hi Hne. destruct (Hat i item Hi) as (row & Hrow & Hshow).
    rewrite lookup_app_l by (rewrite Hlen; by eapply lookup_lt_Some).
    rewrite Hrow. unfold show_item in Hshow.
    rewrite (proj2 (String.eqb_neq _ _)) in Hshow by done. congruence.
  - intros i file Hi Hname. destruct (Hat i _ Hi) as (row & Hrow & Hshow).
    rewrite lookup_app_l by (rewrite Hlen; by eapply lookup_lt_Some).
    rewrite Hrow. unfold show_item in Hshow. cbn in Hshow.
    rewrite String.eqb_refl, (proj2 (String.eqb_neq _ _)) in Hshow by done.
    cbn in Hshow. congruence.
  - intros i value Hi Hfalse. destruct (Hat i _ Hi) as (row & Hrow & Hshow).
    rewrite lookup_app_l by (rewrite Hlen; by eapply lookup_lt_Some).
    rewrite Hrow. unfold show_item in Hshow. cbn in Hshow.
    rewrite String.eqb_refl, Hfalse in Hshow. congruence.
  - intros ->. rewrite lookup_app_r by (by rewrite Hlen).
    by rewrite Hlen, Nat.sub_diag.
Qed.

Lemma get_object_data_rows_witness :
  let items :=
    [("Question Text", Plain (PStr "Best colour?"));
     ("Thumbnail", FieldFile (mkFile "colours.png" "/media/colours.png"));
     ("Thumbnail", FieldFile (mkFile "" ""));
     ("Max Vote Count", Plain PNone)] in
  ∃ rows,
    get_object_data "Thumbnail" (λ l, Markup "") items [] = Ok rows
    ∧ fst <$> rows = (fst <$> items) ++ ["Attachments"]
    ∧ (∀ i item, items !! i = Some item → item.1 ≠ "Thumbnail" →
                 rows !! i = Some item)
    ∧ (∀ i file, items !! i = Some ("Thumbnail", FieldFile file) →
                 file_name file ≠ "" →
                 rows !! i = Some ("Thumbnail", Markup (image_html file)))
    ∧ (∀ i value, items !! i = Some ("Thumbnail", value) →
                  shown_truthy value = false →
                  rows !! i = Some ("Thumbnail", Plain (PStr "None")))
    ∧ (@nil File = [] →
       rows !! length items = Some ("Attachments", Plain (PStr "None"))).
Proof.
  intros items.
  apply (get_object_data_rows "Thumbnail" (λ l, Markup "") items []).
  intros value Hin Htrue.
  repeat (apply elem_of_cons in Hin as [Hin|Hin];
          [first [ discriminate Hin | injection Hin as ->; by eexists ]|]).
  by apply elem_of_nil in Hin.
Defined.

Example get_object_data_example :
  get_object_data "Thumbnail" (λ l, Markup "")
    [("Question Text", Plain (PStr "Best colour?"));
     ("Thumbnail", FieldFile (mkFile "colours.png" "/media/colours.png"))]
    []
  = Ok [("Question Text", Plain (PStr "Best colour?"));
        ("Thumbnail",
         Markup "<img class='thumbnail' src='/media/colours.png' alt='colours.png'>");
        ("Attachments", Plain (PStr "None"))].
Proof. vm_compute. reflexivity. Qed.

End detail_rows.
